(** * arc: request classification and enforcement, permission entities

    A shallow embedding of
    - [internal/types/user/user.go]   (the permission entity and its
      capability checks, [GetPatch], [Validate]) and
    - [plugins/es/middleware.go]      ([categorize], [getIndexName],
      [matchKeywords], [getOp] and the three enforcement filters),
    together with models of the Go standard-library functions they call
    ([strings.Split], [strings.Contains], [strings.HasPrefix],
    [strings.Replace], [strings.TrimSpace], [regexp.MatchString]).

    Go strings are byte sequences: they are modelled by [string], whose
    characters are the bytes.  A Go slice that may be [nil] and whose
    nil-ness the code inspects is an [option (list _)]. *)

From Stdlib Require Import Ascii.
From Stdlib Require String.
From stdpp Require Import gmap strings list.

(** ** Results of Go calls *)

(** What a call of a Go function comes to: it returns, or it panics (an
    index out of range is a run-time panic in Go). *)
Inductive outcome (A : Type) : Type :=
| Returned (a : A)
| Panicked (msg : string).
Arguments Returned {A} a.
Arguments Panicked {A} msg.

(** ** package strings *)

Module GoStrings.

Definition byte (n : nat) : ascii := ascii_of_nat n.

Fixpoint bytes (l : list nat) : string :=
  match l with
  | [] => ""
  | n :: l' => String (byte n) (bytes l')
  end.

(** [strings.HasPrefix(s, prefix)]. *)
Definition HasPrefix (s prefix : string) : bool := String.prefix prefix s.

(** [strings.Contains(s, substr)]: [substr] occurs somewhere in [s]. *)
Fixpoint Contains (s substr : string) : bool :=
  String.prefix substr s ||
  match s with
  | "" => false
  | String _ t => Contains t substr
  end.

(** [strings.Split(s, sep)] for a separator of one byte, which is what
    every call in the sources passes (["/"] and [","]).  The result
    always has at least one element; [Split "" sep = [""]]. *)
Fixpoint Split (s : string) (sep : ascii) : list string :=
  match s with
  | "" => [""]
  | String c t =>
      if Ascii.eqb c sep then "" :: Split t sep
      else match Split t sep with
           | [] => [String c ""]
           | x :: xs => String c x :: xs
           end
  end.

(** [strings.Replace(s, old, new, -1)] for an [old] of one byte: every
    occurrence is replaced. *)
Fixpoint Replace (s : string) (old : ascii) (new : string) : string :=
  match s with
  | "" => ""
  | String c t =>
      if Ascii.eqb c old then new +:+ Replace t old new
      else String c (Replace t old new)
  end.

(** The UTF-8 encodings of the runes for which [unicode.IsSpace] holds:
    TAB, LF, VT, FF, CR, SPACE, U+0085, U+00A0, U+1680, U+2000..U+200A,
    U+2028, U+2029, U+202F, U+205F, U+3000. *)
Definition spaceEncodings : list string :=
  map bytes
    ([[9]; [10]; [11]; [12]; [13]; [32];
      [194; 133]; [194; 160]; [225; 154; 128]] ++
     map (fun k => [226; 128; 128 + k]) (seq 0 11) ++
     [[226; 128; 168]; [226; 128; 169]; [226; 128; 175];
      [226; 129; 159]; [227; 128; 128]]).

Fixpoint dropBytes (n : nat) (s : string) : string :=
  match n, s with
  | S n', String _ t => dropBytes n' t
  | _, _ => s
  end.

(** The rest of [s] after one leading occurrence of a member of [encs]. *)
Fixpoint stripOne (encs : list string) (s : string) : option string :=
  match encs with
  | [] => None
  | e :: encs' =>
      if String.prefix e s then Some (dropBytes (String.length e) s)
      else stripOne encs' s
  end.

Fixpoint stripAll (fuel : nat) (encs : list string) (s : string) : string :=
  match fuel with
  | O => s
  | S fuel' =>
      match stripOne encs s with
      | Some rest => stripAll fuel' encs rest
      | None => s
      end
  end.

Definition TrimLeftSpace (s : string) : string :=
  stripAll (String.length s) spaceEncodings s.

Definition TrimRightSpace (s : string) : string :=
  String.rev
    (stripAll (String.length s) (map String.rev spaceEncodings) (String.rev s)).

(** [strings.TrimSpace(s)]: leading and trailing white space, as Unicode
    defines it, removed.  A string starts (ends) with a white-space rune
    exactly when it starts (ends) with that rune's UTF-8 encoding, so the
    trimming is done on the bytes. *)
Definition TrimSpace (s : string) : string := TrimRightSpace (TrimLeftSpace s).

(** [strings.TrimSuffix(s, suffix)] for a suffix of one byte, which is
    what the classifier passes (["/"]): [s] without its last byte when
    that byte is [suffix], and [s] otherwise. *)
Fixpoint TrimSuffix (s : string) (suffix : ascii) : string :=
  match s with
  | "" => ""
  | String c "" => if Ascii.eqb c suffix then "" else s
  | String c t => String c (TrimSuffix t suffix)
  end.

End GoStrings.

(** ** package net/url *)

Module url.

(** [url.Values], the parsed query of a request: the values given for
    each key, in order. *)
Definition Values : Type := gmap string (list string).

(** The method [Get(key)] of [url.Values]: the first value of the key, the
    empty string when the key has none. *)
Definition Get (v : Values) (key : string) : string :=
  match v !! key with
  | Some (x :: _) => x
  | _ => ""
  end.

End url.

(** ** package unicode/utf8 *)

Module GoUtf8.

(** A rune is a Unicode code point. *)
Definition rune : Type := N.

Definition RuneError : rune := 65533%N.
Definition RuneSelf : rune := 128%N.

Definition between (lo x hi : N) : bool := ((lo <=? x) && (x <=? hi))%N.

(** A continuation byte, [10xxxxxx]. *)
Definition cont (b : N) : bool := between 128 b 191.

Definition low6 (b : N) : N := N.land b 63.

(** [utf8.DecodeRuneInString(s)]: the first rune of [s] and its width in
    bytes; [(RuneError, 0)] for the empty string and [(RuneError, 1)] when
    [s] does not start with a well-formed, shortest-form encoding. *)
Definition DecodeRuneInString (s : string) : rune * nat :=
  match s with
  | "" => (RuneError, 0)
  | String c0 t =>
      let b0 := N_of_ascii c0 in
      if (b0 <? 128)%N then (b0, 1)
      else if between 194 b0 223 then
        match t with
        | String c1 _ =>
            let b1 := N_of_ascii c1 in
            if cont b1
            then (N.lor (N.shiftl (N.land b0 31) 6) (low6 b1), 2)
            else (RuneError, 1)
        | _ => (RuneError, 1)
        end
      else if between 224 b0 239 then
        match t with
        | String c1 (String c2 _) =>
            let b1 := N_of_ascii c1 in
            let b2 := N_of_ascii c2 in
            let lo := if (b0 =? 224)%N then 160%N else 128%N in
            let hi := if (b0 =? 237)%N then 159%N else 191%N in
            if between lo b1 hi && cont b2
            then (N.lor (N.shiftl (N.land b0 15) 12)
                    (N.lor (N.shiftl (low6 b1) 6) (low6 b2)), 3)
            else (RuneError, 1)
        | _ => (RuneError, 1)
        end
      else if between 240 b0 244 then
        match t with
        | String c1 (String c2 (String c3 _)) =>
            let b1 := N_of_ascii c1 in
            let b2 := N_of_ascii c2 in
            let b3 := N_of_ascii c3 in
            let lo := if (b0 =? 240)%N then 144%N else 128%N in
            let hi := if (b0 =? 244)%N then 143%N else 191%N in
            if between lo b1 hi && cont b2 && cont b3
            then (N.lor (N.shiftl (N.land b0 7) 18)
                    (N.lor (N.shiftl (low6 b1) 12)
                       (N.lor (N.shiftl (low6 b2) 6) (low6 b3))), 4)
            else (RuneError, 1)
        | _ => (RuneError, 1)
        end
      else (RuneError, 1)
  end.

Fixpoint takeBytes (n : nat) (s : string) : string :=
  match n, s with
  | S n', String c t => String c (takeBytes n' t)
  | _, _ => ""
  end.

(** One decoded rune of a string, with the bytes it was decoded from;
    [valid] is false for a byte that starts no well-formed encoding (Go
    then yields [RuneError] with width 1). *)
Record token : Type := Token { tokRune : rune; tokText : string; tokValid : bool }.

Fixpoint tokensN (fuel : nat) (s : string) : list token :=
  match fuel, s with
  | S fuel', String _ _ =>
      let '(r, size) := DecodeRuneInString s in
      Token r (takeBytes size s) (negb ((r =? RuneError)%N && (size =? 1)%nat))
      :: tokensN fuel' (GoStrings.dropBytes size s)
  | _, _ => []
  end.

(** The runes of [s], left to right, as a [for range] loop over the
    string visits them. *)
Definition tokens (s : string) : list token := tokensN (String.length s) s.

Definition runes (s : string) : list rune := map tokRune (tokens s).

End GoUtf8.

(** ** package regexp *)

(** A model of [regexp.MatchString] for the part of Go's (RE2) syntax made
    of literal runes, [.], [^], [$], groups [( )], alternation [|], the
    repetitions [*], [+], [?] (and their non-greedy forms [*?], [+?],
    [??]) and a backslash before a punctuation character.  On this
    fragment the parser accepts and rejects what Go's parser does, with
    Go's error code and offending expression, under the flags
    [regexp.Compile] uses ([syntax.Perl]: [^] and [$] are the ends of the
    text, [.] does not match a newline).  Character classes [[ ]], counted
    repetitions [{n,m}], [(?...)] groups and a backslash before a letter
    or digit are outside the model, which answers [ErrNotModelled] for
    them; no statement below evaluates the model on such a pattern.  Go's
    limits on the nesting depth and size of a pattern are not modelled
    either. *)
Module GoRegexp.
Import GoUtf8.

(** [syntax.ErrorCode], the codes the fragment can produce. *)
Inductive ErrorCode : Type :=
| ErrInvalidEscape
| ErrInvalidRepeatOp
| ErrInvalidUTF8
| ErrMissingParen
| ErrMissingRepeatArgument
| ErrTrailingBackslash
| ErrUnexpectedParen
| ErrNotModelled.

Definition ErrorCode_String (c : ErrorCode) : string :=
  match c with
  | ErrInvalidEscape => "invalid escape sequence"
  | ErrInvalidRepeatOp => "invalid nested repetition operator"
  | ErrInvalidUTF8 => "invalid UTF-8"
  | ErrMissingParen => "missing closing )"
  | ErrMissingRepeatArgument => "missing argument to repetition operator"
  | ErrTrailingBackslash => "trailing backslash at end of expression"
  | ErrUnexpectedParen => "unexpected )"
  | ErrNotModelled => "pattern outside the modelled syntax"
  end.

(** [syntax.Error]. *)
Record Error : Type := MkError { Code : ErrorCode; Expr : string }.

Definition Error_Error (e : Error) : string :=
  "error parsing regexp: " +:+ ErrorCode_String (Code e) +:+ ": `" +:+ Expr e +:+ "`".

(** [syntax.Regexp], restricted to the operators of the fragment.  A
    capturing group matches what its body matches and is not kept. *)
Inductive Regexp : Type :=
| OpEmptyMatch
| OpLiteral (r : rune)
| OpAnyCharNotNL
| OpBeginText
| OpEndText
| OpConcat (a b : Regexp)
| OpAlternate (a b : Regexp)
| OpStar (a : Regexp)
| OpPlus (a : Regexp)
| OpQuest (a : Regexp).

(** *** Parsing *)

(** The parser's stack between two parentheses: the alternatives already
    closed by a [|] and the items of the concatenation being read, both
    newest first. *)
Record frame : Type := Frame { alts : list Regexp; items : list Regexp }.

Record state : Type := State { cur : frame; outer : list frame }.

Definition concat (its : list Regexp) : Regexp :=
  match its with
  | [] => OpEmptyMatch
  | x :: xs => fold_left (fun acc y => OpConcat y acc) xs x
  end.

Definition alternate (f : frame) : Regexp :=
  fold_left (fun acc y => OpAlternate y acc) (alts f) (concat (items f)).

Definition push (x : Regexp) (s : state) : state :=
  State (Frame (alts (cur s)) (x :: items (cur s))) (outer s).

Definition isDigit (r : rune) : bool := between 48 r 57.

Definition isalnum (r : rune) : bool :=
  isDigit r || between 65 r 90 || between 97 r 122.

Fixpoint skipDigits (l : list rune) : list rune :=
  match l with
  | r :: l' => if isDigit r then skipDigits l' else l
  | [] => []
  end.

(** [parser.parseInt]: the runes after a decimal number without leading
    zeros, if [l] starts with one. *)
Definition parseInt (l : list rune) : option (list rune) :=
  match l with
  | r :: l' =>
      if negb (isDigit r) then None
      else if (r =? 48)%N && match l' with r' :: _ => isDigit r' | [] => false end
           then None
           else Some (skipDigits l')
  | [] => None
  end.

Definition closesBrace (l : list rune) : bool :=
  match l with
  | r :: _ => (r =? 125)%N
  | [] => false
  end.

(** [parser.parseRepeat] succeeds on [{] followed by [l]: [l] starts
    with [n}], [n,}] or [n,m}]. *)
Definition isRepeat (l : list rune) : bool :=
  match parseInt l with
  | None => false
  | Some [] => false
  | Some ((r :: l1) as l0) =>
      if (r =? 44)%N then
        match l1 with
        | [] => false
        | r1 :: _ =>
            if (r1 =? 125)%N then true
            else match parseInt l1 with
                 | Some l2 => closesBrace l2
                 | None => false
                 end
        end
      else closesBrace l0
  end.

Definition textOf (ts : list token) : string :=
  fold_right (fun t acc => tokText t +:+ acc) "" ts.

Definition notModelled (whole : string) : Regexp + Error :=
  inr (MkError ErrNotModelled whole).

(** [parser.repeat]: the operator [op], whose text is [opText], applied
    to the item read last; [next] parses what follows. *)
Definition repeat (lastRepeat opText : string) (op : Regexp → Regexp)
    (s : state) (next : state → string → Regexp + Error) : Regexp + Error :=
  if negb (String.eqb lastRepeat "")
  then inr (MkError ErrInvalidRepeatOp (lastRepeat +:+ opText))
  else match items (cur s) with
       | [] => inr (MkError ErrMissingRepeatArgument opText)
       | x :: xs => next (State (Frame (alts (cur s)) (op x :: xs)) (outer s)) opText
       end.

(** The main loop of [syntax.Parse]: [ts] is what is left of the
    pattern, [lastRepeat] the text of the repetition operator read just
    before ([""] when the previous item was not one). *)
Fixpoint parseLoop (whole : string) (ts : list token) (s : state)
    (lastRepeat : string) {struct ts} : Regexp + Error :=
  match ts with
  | [] =>
      match outer s with
      | [] => inl (alternate (cur s))
      | _ :: _ => inr (MkError ErrMissingParen whole)
      end
  | t :: rest =>
      if negb (tokValid t) then inr (MkError ErrInvalidUTF8 (textOf ts))
      else
        let rep (op : Regexp → Regexp) :=
          match rest with
          | q :: rest' =>
              if (tokRune q =? 63)%N
              then repeat lastRepeat (tokText t +:+ "?") op s (parseLoop whole rest')
              else repeat lastRepeat (tokText t) op s (parseLoop whole rest)
          | [] => repeat lastRepeat (tokText t) op s (parseLoop whole rest)
          end in
        match tokRune t with
        | 40 (* ( *) =>
            match rest with
            | q :: _ =>
                if (tokRune q =? 63)%N then notModelled whole
                else parseLoop whole rest (State (Frame [] []) (cur s :: outer s)) ""
            | [] => parseLoop whole rest (State (Frame [] []) (cur s :: outer s)) ""
            end
        | 124 (* | *) =>
            parseLoop whole rest
              (State (Frame (concat (items (cur s)) :: alts (cur s)) []) (outer s)) ""
        | 41 (* ) *) =>
            match outer s with
            | [] => inr (MkError ErrUnexpectedParen whole)
            | f :: fs =>
                parseLoop whole rest
                  (State (Frame (alts f) (alternate (cur s) :: items f)) fs) ""
            end
        | 94 (* ^ *) => parseLoop whole rest (push OpBeginText s) ""
        | 36 (* $ *) => parseLoop whole rest (push OpEndText s) ""
        | 46 (* . *) => parseLoop whole rest (push OpAnyCharNotNL s) ""
        | 42 (* * *) => rep OpStar
        | 43 (* + *) => rep OpPlus
        | 63 (* ? *) => rep OpQuest
        | 92 (* \ *) =>
            match rest with
            | [] => inr (MkError ErrTrailingBackslash "")
            | q :: rest' =>
                if negb (tokValid q) then inr (MkError ErrInvalidUTF8 (textOf rest))
                else if (tokRune q <? RuneSelf)%N then
                  if isalnum (tokRune q) then notModelled whole
                  else parseLoop whole rest' (push (OpLiteral (tokRune q)) s) ""
                else inr (MkError ErrInvalidEscape (tokText t +:+ tokText q))
            end
        | 91 (* [ *) => notModelled whole
        | 123 (* { *) =>
            if isRepeat (map tokRune rest) then notModelled whole
            else parseLoop whole rest (push (OpLiteral (tokRune t)) s) ""
        | _ => parseLoop whole rest (push (OpLiteral (tokRune t)) s) ""
        end%N
  end.

(** [syntax.Parse(pattern, syntax.Perl)]. *)
Definition Parse (pattern : string) : Regexp + Error :=
  parseLoop pattern (tokens pattern) (State (Frame [] []) []) "".

(** *** Matching *)

(** [closure f n X]: the positions reached from [X] by at most [n]
    rounds of [f]. *)
Fixpoint closure (f : list nat → list nat) (n : nat) (X : list nat) : list nat :=
  match n with
  | O => X
  | S n' => closure f n' (remove_dups (X ++ f X))
  end.

Definition stepRune (text : list rune) (ok : rune → bool) (i : nat) : option nat :=
  match text !! i with
  | Some c => if ok c then Some (S i) else None
  | None => None
  end.

(** The positions of [text] at which a match of [re] can end when it
    starts at one of the positions [starts]. *)
Fixpoint ends (text : list rune) (re : Regexp) (starts : list nat) : list nat :=
  match re with
  | OpEmptyMatch => starts
  | OpLiteral r => omap (stepRune text (fun c => (c =? r)%N)) starts
  | OpAnyCharNotNL => omap (stepRune text (fun c => negb (c =? 10)%N)) starts
  | OpBeginText => filter (fun i => i = 0) starts
  | OpEndText => filter (fun i => i = length text) starts
  | OpConcat a b => ends text b (ends text a starts)
  | OpAlternate a b => ends text a starts ++ ends text b starts
  | OpStar a => closure (ends text a) (S (length text)) starts
  | OpPlus a => closure (ends text a) (S (length text)) (ends text a starts)
  | OpQuest a => starts ++ ends text a starts
  end.

(** The method [MatchString(s)] of a compiled [Regexp]: [s] contains a
    match of [re]. *)
Definition Regexp_MatchString (re : Regexp) (s : string) : bool :=
  let text := runes s in
  match ends text re (seq 0 (S (length text))) with
  | [] => false
  | _ :: _ => true
  end.

(** [regexp.MatchString(pattern, s)]: [(false, err)] when the pattern
    does not compile. *)
Definition MatchString (pattern s : string) : bool * option Error :=
  match Parse pattern with
  | inr err => (false, Some err)
  | inl re => (Regexp_MatchString re s, None)
  end.

End GoRegexp.

(** ** package net/http *)

Module http.
Definition MethodGet : string := "GET".
Definition MethodHead : string := "HEAD".
Definition MethodPost : string := "POST".
Definition MethodPut : string := "PUT".
Definition MethodDelete : string := "DELETE".

Definition StatusBadRequest : nat := 400.
Definition StatusUnauthorized : nat := 401.
Definition StatusInternalServerError : nat := 500.
End http.

(** ** packages acl, op and util *)

(** Modelled from the spec: package [internal/types/acl] is not among the
    sources.  The spec (section 3) makes ACL an enumerated category with
    value equality and names index-admin, search, bulk, streaming and
    miscellaneous; [middleware.go] refers to the last two as [acl.Streams]
    and [acl.Misc]. *)
Module Acl.
Inductive ACL : Type := IndexAdmin | Search | Bulk | Streams | Misc.

#[export] Instance ACL_eq_dec : EqDecision ACL.
Proof. solve_decision. Defined.
End Acl.

(** Modelled from the spec: package [internal/types/op] is not among the
    sources.  The spec (section 3) makes Operation an enumerated value in
    Read, Write, Delete; [middleware.go] uses [op.Read], [op.Write] and
    [op.Delete]. *)
Module Op.
Inductive Operation : Type := Read | Write | Delete.

#[export] Instance Operation_eq_dec : EqDecision Operation.
Proof. solve_decision. Defined.
End Op.

Module Util.
(** Modelled from the spec: [util.Contains(slice, s)] of package
    [internal/util] is not among the sources; the spec (section 4.2)
    uses it as membership of the method in the accepted-methods set. *)
Fixpoint Contains (slice : list string) (s : string) : bool :=
  match slice with
  | [] => false
  | x :: rest => if decide (x = s) then true else Contains rest s
  end.
End Util.

(** ** What the code takes from outside the repository *)

(** The library functions whose results the statements below do not depend
    on: Go's [error] values with their [Error()] text, [regexp.MatchString]
    (it returns [(matched, err)]), and the [String()] methods of [acl.ACL]
    and [op.Operation] that [fmt.Sprintf] calls for [%s].  [goLib] below
    instantiates them with the models of this file. *)
Class GoLib : Type := {
  error : Type;
  error_Error : error → string;
  regexp_MatchString : string → string → bool * option error;
  ACL_String : Acl.ACL → string;
  Operation_String : Op.Operation → string
}.

(** Modelled from the spec: the [String()] methods of [acl.ACL] and
    [op.Operation] are not among the sources; the names are the ones the
    spec gives to the categories and operations. *)
Definition specACLName (a : Acl.ACL) : string :=
  match a with
  | Acl.IndexAdmin => "index-admin"
  | Acl.Search => "search"
  | Acl.Bulk => "bulk"
  | Acl.Streams => "streaming"
  | Acl.Misc => "miscellaneous"
  end.

Definition specOperationName (o : Op.Operation) : string :=
  match o with
  | Op.Read => "read"
  | Op.Write => "write"
  | Op.Delete => "delete"
  end.

(** The instance with the regexp model of this file. *)
Definition goLib : GoLib := {|
  error := GoRegexp.Error;
  error_Error := GoRegexp.Error_Error;
  regexp_MatchString := GoRegexp.MatchString;
  ACL_String := specACLName;
  Operation_String := specOperationName
|}.

(** A Go slice as the list a [range] loop visits; [nil] has no elements. *)
Definition slice {A : Type} (s : option (list A)) : list A := default [] s.

(** ** internal/types/user/user.go *)

Module User.
Import Acl Op.

(** [type User struct].  [IsAdmin] is a [*bool]: [None] is the nil
    pointer.  The three slices may be [nil], which [GetPatch] tells from
    an empty slice. *)
Record User : Type := MkUser {
  UserId : string;
  Password : string;
  IsAdmin : option bool;
  ACLs : option (list ACL);
  Email : string;
  Ops : option (list Operation);
  Indices : option (list string)
}.

(** What [GetPatch] stores under a key of the [map[string]interface{}];
    for [is_admin] it is the pointer, given here by the [bool] it points
    to. *)
Inductive value : Type :=
| VString (s : string)
| VBoolPtr (b : bool)
| VACLs (l : list ACL)
| VOps (l : list Operation)
| VStrings (l : list string).

(** [errors.NewMissingFieldError(kind, field)]; package
    [internal/errors] is not among the sources, the error is kept as its
    two arguments. *)
Inductive MissingFieldError : Type :=
| NewMissingFieldError (kind field : string).

Fixpoint HasACL_loop (acls : list ACL) (acl : ACL) : bool :=
  match acls with
  | [] => false
  | a :: rest => if decide (a = acl) then true else HasACL_loop rest acl
  end.

(** [func (u *User) HasACL(acl acl.ACL) bool]. *)
Definition HasACL (u : User) (acl : ACL) : bool := HasACL_loop (slice (ACLs u)) acl.

Fixpoint Can_loop (ops : list Operation) (op : Operation) : bool :=
  match ops with
  | [] => false
  | o :: rest => if decide (o = op) then true else Can_loop rest op
  end.

(** [func (u *User) Can(op op.Operation) bool]. *)
Definition Can (u : User) (op : Operation) : bool := Can_loop (slice (Ops u)) op.

Section WithLib.
Context `{GoLib}.

(** The loop of [CanAccessIndex] over the patterns still to visit. *)
Fixpoint CanAccessIndex_loop (patterns : list string) (name : string)
    : bool * option error :=
  match patterns with
  | [] => (false, None)
  | pattern :: rest =>
      let '(matched, err) := regexp_MatchString pattern name in
      match err with
      | Some e => (false, Some e)
      | None => if matched then (true, None) else CanAccessIndex_loop rest name
      end
  end.

(** [func (u *User) CanAccessIndex(name string) (bool, error)]. *)
Definition CanAccessIndex (u : User) (name : string) : bool * option error :=
  CanAccessIndex_loop (slice (Indices u)) name.

(** [func (u *User) GetPatch() (map[string]interface{}, error)]. *)
Definition GetPatch (u : User) : gmap string value * option error :=
  let patch : gmap string value := ∅ in
  let patch := if decide (UserId u ≠ "") then <["user_id" := VString (UserId u)]> patch else patch in
  let patch := if decide (Password u ≠ "") then <["password" := VString (Password u)]> patch else patch in
  let patch := match IsAdmin u with Some b => <["is_admin" := VBoolPtr b]> patch | None => patch end in
  let patch := if decide (Email u ≠ "") then <["email" := VString (Email u)]> patch else patch in
  let patch := match ACLs u with Some l => <["acls" := VACLs l]> patch | None => patch end in
  let patch := match Ops u with Some l => <["ops" := VOps l]> patch | None => patch end in
  let patch := match Indices u with Some l => <["indices" := VStrings l]> patch | None => patch end in
  (patch, None).
End WithLib.

(** [func (u *User) Validate() error]. *)
Definition Validate (u : User) : option MissingFieldError :=
  if decide (UserId u = "") then Some (NewMissingFieldError "user" "user_id")
  else match IsAdmin u with
       | None => Some (NewMissingFieldError "user" "is_admin")
       | Some _ => None
       end.

(** The errors of package [internal/errors] that the options return; the
    package is not among the sources and the three values are kept by
    their names. *)
Inductive NilError : Type := NilACLsError | NilOpsError | NilIndicesError.

(** [type Options func(u *User) error]: an option changes the user it is
    applied to and may return an error. *)
Definition Options : Type := User → User * option NilError.

Definition setIsAdmin (u : User) (isAdmin : option bool) : User :=
  MkUser (UserId u) (Password u) isAdmin (ACLs u) (Email u) (Ops u) (Indices u).

Definition setACLs (u : User) (acls : option (list ACL)) : User :=
  MkUser (UserId u) (Password u) (IsAdmin u) acls (Email u) (Ops u) (Indices u).

Definition setEmail (u : User) (email : string) : User :=
  MkUser (UserId u) (Password u) (IsAdmin u) (ACLs u) email (Ops u) (Indices u).

Definition setOps (u : User) (ops : option (list Operation)) : User :=
  MkUser (UserId u) (Password u) (IsAdmin u) (ACLs u) (Email u) ops (Indices u).

Definition setIndices (u : User) (indices : option (list string)) : User :=
  MkUser (UserId u) (Password u) (IsAdmin u) (ACLs u) (Email u) (Ops u) indices.

(** The five option constructors of [user.go]; they bear the names of the
    fields they set. *)
Module With.

(** [func IsAdmin(isAdmin *bool) Options]. *)
Definition IsAdmin (isAdmin : option bool) : Options := fun u =>
  (setIsAdmin u isAdmin, None).

(** [func ACLs(acls []acl.ACL) Options]. *)
Definition ACLs (acls : option (list ACL)) : Options := fun u =>
  match acls with
  | None => (u, Some NilACLsError)
  | Some _ => (setACLs u acls, None)
  end.

(** [func Email(email string) Options]. *)
Definition Email (email : string) : Options := fun u =>
  (setEmail u email, None).

(** [func Ops(ops []op.Operation) Options]. *)
Definition Ops (ops : option (list Operation)) : Options := fun u =>
  match ops with
  | None => (u, Some NilOpsError)
  | Some _ => (setOps u ops, None)
  end.

(** [func Indices(indices []string) Options]. *)
Definition Indices (indices : option (list string)) : Options := fun u =>
  match indices with
  | None => (u, Some NilIndicesError)
  | Some _ => (setIndices u indices, None)
  end.

End With.

(** The loop of [New] over the options still to run on [u]. *)
Fixpoint New_loop (u : User) (opts : list Options) : User + NilError :=
  match opts with
  | [] => inl u
  | option :: rest =>
      let '(u', err) := option u in
      match err with
      | Some e => inr e
      | None => New_loop u' rest
      end
  end.

Section Defaults.

(** The package variables [defaultIsAdmin], [defaultACLs] and
    [defaultOps], which are declared in a file that is not among the
    sources. *)
Variable defaultIsAdmin : bool.
Variable defaultACLs : option (list ACL).
Variable defaultOps : option (list Operation).

(** [func New(userId, password string, opts ...Options)]: the user, or
    the error of the first option that fails.  [IsAdmin]
    starts as the address of [defaultIsAdmin], which is not nil, and
    [Indices] as an empty slice, which is not nil either. *)
Definition New (userId password : string) (opts : list Options) : User + NilError :=
  New_loop (MkUser userId password (Some defaultIsAdmin) defaultACLs "" defaultOps (Some []))
    opts.

End Defaults.

End User.

(** ** plugins/es/middleware.go *)

Module Es.
Import Acl Op User.

(** The fields of [api] that [middleware.go] reads; the type itself is
    declared in a file that is not among the sources.  [pathRegexps] is a
    Go map from endpoint to pattern: the list gives its entries in the
    order the [range] loop of [categorize] visits them, which Go leaves
    unspecified, so every statement about [categorize] is made for every
    order.  [keywords] is a Go map used as a set. *)
Record api : Type := MkApi {
  api_acl : ACL;
  api_Methods : list string;
  api_pathRegexps : list (string * string);
  api_keywords : gset string
}.

Definition indexVar : string := "{index}".

Definition slash : ascii := "/"%char.
Definition comma : ascii := ","%char.
Definition star : ascii := "*"%char.

(** The [for i := 0; i < len(requestPath); i++] loop of [getIndexName]:
    [n] iterations are left and the next one has index [i].  An index
    expression outside the slice panics. *)
Fixpoint getIndexName_loop (endpointTokens requestPathTokens : list string)
    (n i : nat) : outcome (list string) :=
  match n with
  | O => Returned []
  | S n' =>
      match endpointTokens !! i with
      | None => Panicked "index out of range"
      | Some token =>
          if decide (token = indexVar) then
            match requestPathTokens !! i with
            | None => Panicked "index out of range"
            | Some names => Returned (map GoStrings.TrimSpace (GoStrings.Split names comma))
            end
          else getIndexName_loop endpointTokens requestPathTokens n' (S i)
      end
  end.

(** [func getIndexName(endpoint, requestPath string) []string]. *)
Definition getIndexName (endpoint requestPath : string) : outcome (list string) :=
  if negb (GoStrings.Contains endpoint indexVar) then Returned []
  else
    let endpointTokens := GoStrings.Split endpoint slash in
    let requestPathTokens := GoStrings.Split requestPath slash in
    if negb (length endpointTokens =? length requestPathTokens) then Returned []
    else getIndexName_loop endpointTokens requestPathTokens (String.length requestPath) 0.

(** The loop of [matchKeywords] over the tokens still to visit. *)
Fixpoint matchKeywords_loop (keywords : gset string) (tokens : list string)
    (count : nat) : bool :=
  match tokens with
  | [] => count =? 0
  | token :: rest =>
      if GoStrings.HasPrefix token "_" then
        if decide (token ∈ keywords) then true
        else matchKeywords_loop keywords rest (S count)
      else matchKeywords_loop keywords rest count
  end.

(** [func matchKeywords(api api, path string) bool]. *)
Definition matchKeywords (a : api) (path : string) : bool :=
  matchKeywords_loop (api_keywords a) (GoStrings.Split path slash) 0.

(** [func getOp(methods []string, method string) op.Operation]. *)
Definition getOp (methods : list string) (method : string) : Operation :=
  if decide (method = http.MethodGet) then Read
  else if decide (method = http.MethodPost) then
    if Util.Contains methods http.MethodGet then Read else Write
  else if decide (method = http.MethodPut) then Write
  else if decide (method = http.MethodHead) then Read
  else if decide (method = http.MethodDelete) then Delete
  else Read.

(** What [categorize] returns. *)
Definition category : Type := ACL * Operation * list string.

Section WithLib.
Context `{GoLib}.

(** The inner loop of [categorize] over the entries of [api.pathRegexps]
    still to visit: [Some] is the [return] inside the loop, [None] the end
    of the loop.  The [log.Printf] calls are left out. *)
Fixpoint categorize_endpoints (a : api) (entries : list (string * string))
    (method path : string) : option (outcome category) :=
  match entries with
  | [] => None
  | (endpoint, pattern) :: rest =>
      let '(ok, err) := regexp_MatchString pattern path in
      match err with
      | Some _ => categorize_endpoints a rest method path
      | None =>
          if ok && Util.Contains (api_Methods a) method && matchKeywords a path then
            Some match getIndexName endpoint path with
                 | Returned indices => Returned (api_acl a, getOp (api_Methods a) method, indices)
                 | Panicked msg => Panicked msg
                 end
          else categorize_endpoints a rest method path
      end
  end.

(** [func (es *es) categorize(method, path string)], on [es.specs]. *)
Fixpoint categorize (specs : list api) (method path : string) : outcome category :=
  match specs with
  | [] => Returned (Misc, Read, [])
  | a :: rest =>
      match categorize_endpoints a (api_pathRegexps a) method path with
      | Some result => result
      | None => categorize rest method path
      end
  end.

(** *** The enforcement filters *)

(** The request as the filters see it: the values stored in its context
    under [acl.CtxKey], [op.CtxKey], [index.CtxKey] and the key of the
    permission; [None] when nothing is stored under the key. *)
Record Request : Type := MkRequest {
  ctx_acl : option ACL;
  ctx_op : option Operation;
  ctx_index : option (list string);
  ctx_permission : option User
}.

(** Modelled from the spec: [acl.FromContext] is not among the sources.
    By section 4.4 of the spec a filter either finds the value it needs in
    the request's context or cannot find it: the helper returns the stored
    ACL, and an error ([None]) when none is stored. *)
Definition acl_FromContext (ctx : Request) : option ACL := ctx_acl ctx.

(** Modelled from the spec: [op.FromContext] is not among the sources; it
    returns the stored operation, and an error ([None]) when none is
    stored. *)
Definition op_FromContext (ctx : Request) : option Operation := ctx_op ctx.

(** Modelled from the spec: package [internal/types/permission] is not
    among the sources.  The spec (sections 3 and 4.3) has one permission
    entity with the capability checks [hasACL], [canDo] and
    [canAccessResource]; the filters use of it the fields [Username] and
    [Indices] and the methods [HasACL], [CanDo] and [CanAccessIndex], which
    are taken from [user.go] ([UserId], [Indices], [HasACL], [Can],
    [CanAccessIndex]).  [permission.FromContext] returns the stored entity,
    and an error ([None]) when none is stored. *)
Definition permission_FromContext (ctx : Request) : option User := ctx_permission ctx.

(** A call of [util.WriteBackError] or [util.WriteBackMessage] on the
    response writer, with its message and status code.  Package [util] is
    not among the sources; the response is kept as the calls made on it. *)
Inductive written : Type :=
| WriteBackError (msg : string) (code : nat)
| WriteBackMessage (msg : string) (code : nat).

Definition statusOf (x : written) : nat :=
  match x with
  | WriteBackError _ code => code
  | WriteBackMessage _ code => code
  end.

Definition ResponseWriter : Type := list written.

(** [http.HandlerFunc]: a handler turns the response writer it is given
    into the one it leaves. *)
Definition HandlerFunc : Type := ResponseWriter → Request → ResponseWriter.

(** [func validateACL(h http.HandlerFunc) http.HandlerFunc]. *)
Definition validateACL (h : HandlerFunc) : HandlerFunc := fun w r =>
  let errMsg := "An error occurred while validating request acl" in
  match acl_FromContext r with
  | None => w ++ [WriteBackError errMsg http.StatusInternalServerError]
  | Some reqACL =>
      match permission_FromContext r with
      | None => w ++ [WriteBackError errMsg http.StatusInternalServerError]
      | Some reqPermission =>
          if negb (HasACL reqPermission reqACL) then
            let msg := "permission with username=" +:+ UserId reqPermission +:+
                       " does not have '" +:+ ACL_String reqACL +:+ "' acl" in
            w ++ [WriteBackMessage msg http.StatusUnauthorized]
          else h w r
      end
  end.

(** [func validateOp(h http.HandlerFunc) http.HandlerFunc]. *)
Definition validateOp (h : HandlerFunc) : HandlerFunc := fun w r =>
  let errMsg := "An error occurred while validating request op" in
  match op_FromContext r with
  | None => w ++ [WriteBackError errMsg http.StatusInternalServerError]
  | Some reqOp =>
      match permission_FromContext r with
      | None => w ++ [WriteBackError errMsg http.StatusInternalServerError]
      | Some reqPermission =>
          if negb (Can reqPermission reqOp) then
            let msg := "permission with username=" +:+ UserId reqPermission +:+
                       " does not have '" +:+ Operation_String reqOp +:+ "' operation" in
            w ++ [WriteBackMessage msg http.StatusUnauthorized]
          else h w r
      end
  end.

(** The pattern a stored pattern is turned into before it is matched in
    the index-level branch of [validateIndices]:
    [strings.Replace(pattern, "*", ".*", -1)]. *)
Definition indexPattern (pattern : string) : string :=
  GoStrings.Replace pattern star ".*".

(** The inner loop of [validateIndices], over the stored patterns still to
    visit for one index name: [Some] is what is written before the
    [return] inside the loop, [None] the end of the loop. *)
Fixpoint validateIndices_patterns (patterns : list string) (indexName : string)
    : option written :=
  match patterns with
  | [] => None
  | pattern :: rest =>
      let pattern := indexPattern pattern in
      let '(ok, err) := regexp_MatchString pattern indexName in
      match err with
      | Some _ =>
          Some (WriteBackMessage ("invalid index pattern encountered " +:+ pattern)
                  http.StatusUnauthorized)
      | None =>
          if negb ok then
            Some (WriteBackMessage ("User is unauthorized to access index " +:+ indexName)
                    http.StatusUnauthorized)
          else validateIndices_patterns rest indexName
      end
  end.

(** The outer loop of [validateIndices], over the index names. *)
Fixpoint validateIndices_names (indices : list string) (patterns : list string)
    : option written :=
  match indices with
  | [] => None
  | indexName :: rest =>
      match validateIndices_patterns patterns indexName with
      | Some x => Some x
      | None => validateIndices_names rest patterns
      end
  end.

(** [func validateIndices(h http.HandlerFunc) http.HandlerFunc]. *)
Definition validateIndices (h : HandlerFunc) : HandlerFunc := fun w r =>
  let errMsg := "An error occurred while validating request indices" in
  match permission_FromContext r with
  | None => w ++ [WriteBackError errMsg http.StatusInternalServerError]
  | Some reqPermission =>
      match ctx_index r with
      | None => w ++ [WriteBackMessage "Internal server error" http.StatusInternalServerError]
      | Some indices =>
          if length indices =? 0 then
            let '(canAccess, err) := CanAccessIndex reqPermission "*" in
            match err with
            | Some e => w ++ [WriteBackError (error_Error e) http.StatusBadRequest]
            | None =>
                if negb canAccess then
                  w ++ [WriteBackError "User is unauthorized to access cluster level routes"
                          http.StatusUnauthorized]
                else h w r
            end
          else
            match validateIndices_names indices (slice (Indices reqPermission)) with
            | Some x => w ++ [x]
            | None => h w r
            end
      end
  end.

(** What the classifier reads of the incoming [*http.Request]: the method,
    [r.URL.Path], the parsed query [r.URL.Query()] and the values already
    in its context. *)
Record HttpRequest : Type := MkHttpRequest {
  req_Method : string;
  req_Path : string;
  req_Query : url.Values;
  req_Context : Request
}.

(** The request the classifier hands to the next handler: the three
    [context.WithValue] calls store the ACL, the operation and the indices
    over whatever was stored under those keys; the other values of the
    context stay. *)
Definition classified (r : HttpRequest) (c : category) : Request :=
  let '(reqACL, reqOp, indices) := c in
  let reqACL :=
    if decide (url.Get (req_Query r) "stream" = "true") then Streams else reqACL in
  MkRequest (Some reqACL) (Some reqOp) (Some indices) (ctx_permission (req_Context r)).

(** [func (es *es) classifier(h http.HandlerFunc) http.HandlerFunc], on
    [es.specs].  A panic of [categorize] leaves the handler before
    anything is written. *)
Definition classifier (specs : list api) (h : HandlerFunc)
    (w : ResponseWriter) (r : HttpRequest) : outcome ResponseWriter :=
  let path := GoStrings.TrimSuffix (req_Path r) slash in
  let method := req_Method r in
  match categorize specs method path with
  | Panicked msg => Panicked msg
  | Returned c => Returned (h w (classified r c))
  end.

End WithLib.

End Es.

(** ** plugins/users/dao.go *)

Module Users.

(** [user.User] of package [model/user], which is not among the sources:
    the three fields [dao.go] reads and writes, and the rest of the
    struct. *)
Record User {Rest : Type} : Type := MkUser {
  Username : string;
  Password : string;
  PasswordHashType : string;
  Others : Rest
}.
Arguments User Rest : clear implicits.

(** What [dao.go] calls outside the repository's sources.  [World] is
    everything those calls read and change: the cluster, the process
    environment and the random source of [bcrypt].  Byte slices are
    strings. *)
Class Backend : Type := {
  World : Type;
  error : Type;
  UserRest : Type;
  (** [util.GetVersion()] *)
  util_GetVersion : World → Z;
  (** [es.getRawUsersEs6(ctx)] and [es.getRawUsersEs7(ctx)] *)
  getRawUsersEs6 : World → World * (string * option error);
  getRawUsersEs7 : World → World * (string * option error);
  (** [es.patchUserEs6(ctx, username, patch)] and its Es7 twin *)
  patchUserEs6 : string → gmap string string → World → World * (string * option error);
  patchUserEs7 : string → gmap string string → World → World * (string * option error);
  (** [json.Unmarshal(rawUsers, &users)] *)
  json_Unmarshal_users : string → list (User UserRest) * option error;
  (** [bcrypt.GenerateFromPassword(password, bcrypt.DefaultCost)] *)
  bcrypt_GenerateFromPassword : string → World → World * (string * option error);
  (** [os.Getenv(key)] *)
  os_Getenv : string → World → string;
  (** [user.NewAdmin(username, password)] *)
  user_NewAdmin : string → string → User UserRest + error;
  (** [util.GetClient7().Index().Refresh("wait_for").Index(indexName).Id(id).BodyJson(u).Do(ctx)],
      of which only the error is used *)
  client_Index : string → string → User UserRest → World → World * option error;
  (** [util.GetClient7().Delete().Refresh("wait_for").Index(indexName).Id(id).Do(ctx)] *)
  client_Delete : string → string → World → World * option error
}.

(** [type elasticsearch struct]. *)
Record elasticsearch : Type := MkElasticsearch { indexName : string }.

(** What [postMasterUser] returns when it fails: the
    [fmt.Errorf("%s: error while creating a master user: %v", logTag, err)],
    kept as the error it wraps ([None] for a nil [err]). *)
Inductive MasterUserError {E : Type} : Type :=
| ErrorWhileCreatingMasterUser (cause : option E).
Arguments MasterUserError E : clear implicits.

Section WithBackend.
Context `{Backend}.


(** [func (es *elasticsearch) patchUser(ctx, username, patch)]. *)
Definition patchUser (es : elasticsearch) (username : string) (patch : gmap string string)
    (w : World) : World * (string * option error) :=
  if decide (util_GetVersion w = 6%Z) then patchUserEs6 username patch w
  else patchUserEs7 username patch w.

(** [func (es *elasticsearch) postUser(ctx, u)]. *)
Definition postUser (es : elasticsearch) (u : User UserRest) (w : World)
    : World * (bool * option error) :=
  let '(w', err) := client_Index (indexName es) (Username u) u w in
  match err with
  | Some e => (w', (false, Some e))
  | None => (w', (true, None))
  end.

(** [func (es *elasticsearch) deleteUser(ctx, username)]. *)
Definition deleteUser (es : elasticsearch) (username : string) (w : World)
    : World * (bool * option error) :=
  let '(w', err) := client_Delete (indexName es) username w in
  match err with
  | Some e => (w', (false, Some e))
  | None => (w', (true, None))
  end.

(** The loop of [hashPasswords] over the users still to visit.  The error
    of [bcrypt.GenerateFromPassword] is only logged. *)
Fixpoint hashPasswords_loop (es : elasticsearch) (users : list (User UserRest))
    (w : World) : World * option error :=
  match users with
  | [] => (w, None)
  | user :: rest =>
      if decide (PasswordHashType user ≠ "") then hashPasswords_loop es rest w
      else
        let '(w1, (hashedPassword, _)) := bcrypt_GenerateFromPassword (Password user) w in
        let '(w2, (_, err)) :=
          patchUser es (Username user)
            (<["password" := hashedPassword]> (<["password_hash_type" := "bcrypt"]> ∅)) w1 in
        match err with
        | Some e => (w2, Some e)
        | None => hashPasswords_loop es rest w2
        end
  end.


(** [func (es *elasticsearch) postMasterUser() error].  The error of
    [bcrypt.GenerateFromPassword] is only logged. *)
Definition postMasterUser (es : elasticsearch) (w : World)
    : World * option (MasterUserError error) :=
  let username := os_Getenv "USERNAME" w in
  let password := os_Getenv "PASSWORD" w in
  let '(username, password) :=
    if decide (username = "") then ("foo", "bar") else (username, password) in
  let '(w1, (hashedPassword, _)) := bcrypt_GenerateFromPassword password w in
  match user_NewAdmin username hashedPassword with
  | inr err => (w1, Some (ErrorWhileCreatingMasterUser (Some err)))
  | inl admin =>
      let admin := MkUser _ (Username admin) (Password admin) "bcrypt" (Others admin) in
      let '(w2, (created, err)) := postUser es admin w1 in
      if negb created || bool_decide (is_Some err)
      then (w2, Some (ErrorWhileCreatingMasterUser err))
      else (w2, None)
  end.

End WithBackend.

End Users.

(** ** The statements of the specification *)

Module Spec.
Import Acl Op User Es.

Section WithLib.
Context `{GoLib}.

(** A stored pattern, taken as a regular expression, matches a name. *)
Definition matches (pattern name : string) : Prop :=
  regexp_MatchString pattern name = (true, None).

(** A stored pattern is valid as a regular expression and does not match
    the name. *)
Definition rejects (pattern name : string) : Prop :=
  regexp_MatchString pattern name = (false, None).

(** A stored pattern is not a valid regular expression: matching it
    against the name gives the error [e]. *)
Definition invalidWith (pattern name : string) (e : error) : Prop :=
  (regexp_MatchString pattern name).2 = Some e.

(** A stored pattern passes for a name in the index-level branch of
    [validateIndices]: rewritten by [indexPattern], it is valid and
    matches. *)
Definition passes (name pattern : string) : Prop :=
  regexp_MatchString (indexPattern pattern) name = (true, None).

(** A filter lets the request through: whatever the next handler is, the
    filter does what that handler does. *)
Definition allows (filter : HandlerFunc → HandlerFunc) (w : ResponseWriter)
    (r : Request) : Prop :=
  ∀ h, filter h w r = h w r.

(** A filter answers the request itself with the write [x]: whatever the
    next handler is, it is not called and [x] is all that is written. *)
Definition answers (filter : HandlerFunc → HandlerFunc) (w : ResponseWriter)
    (r : Request) (x : written) : Prop :=
  ∀ h, filter h w r = w ++ [x].

(** Section 4.3 of the spec on [canAccessResource], as it is worded: true
    iff any stored pattern matches, and an error whenever any stored
    pattern is invalid. *)
Definition canAccessResource_as_stated (u : User) (name : string) : Prop :=
  ((CanAccessIndex u name).1 = true ↔
     ∃ p, p ∈ slice (Indices u) ∧ matches p name) ∧
  ((∃ p e, p ∈ slice (Indices u) ∧ invalidWith p name e) →
     ∃ e, (CanAccessIndex u name).2 = Some e).

(** A request that carries the resource names [indices] and the
    permission entity [u]. *)
Definition requestFor (a : ACL) (o : Operation) (indices : list string) (u : User)
    : Request :=
  MkRequest (Some a) (Some o) (Some indices) (Some u).

(** Section 4.4 of the spec on the Resource filter for a non-empty
    resource list, as it is worded: the request is allowed only if every
    stored pattern matches every resolved name. *)
Definition resourceFilter_as_stated (u : User) (indices : list string) : Prop :=
  ∀ w a o,
    allows validateIndices w (requestFor a o indices u) →
    ∀ name p, name ∈ indices → p ∈ slice (Indices u) → matches p name.

(** Sections 4.4 and 8 of the spec on the Resource filter for an empty
    resource list, as they are worded: allowed iff the entity has access
    over ["*"], otherwise denied as unauthorized with the cluster-level
    message. *)
Definition clusterGate_as_stated (u : User) : Prop :=
  ∀ w a o,
    let r := requestFor a o [] u in
    (allows validateIndices w r ↔ (CanAccessIndex u "*").1 = true) ∧
    (¬ allows validateIndices w r →
     answers validateIndices w r
       (WriteBackError "User is unauthorized to access cluster level routes"
          http.StatusUnauthorized)).

End WithLib.

(** Section 4.3 of the spec on [buildPatch], as it is worded: the value
    the mapping holds for a field name, present exactly when the field is
    not at its default. *)
Definition patchField (u : User) (k : string) : option value :=
  if decide (k = "user_id") then
    if decide (UserId u = "") then None else Some (VString (UserId u))
  else if decide (k = "password") then
    if decide (Password u = "") then None else Some (VString (Password u))
  else if decide (k = "is_admin") then VBoolPtr <$> IsAdmin u
  else if decide (k = "email") then
    if decide (Email u = "") then None else Some (VString (Email u))
  else if decide (k = "acls") then VACLs <$> ACLs u
  else if decide (k = "ops") then VOps <$> Ops u
  else if decide (k = "indices") then VStrings <$> Indices u
  else None.

(** The position of the first segment that holds the placeholder. *)
Fixpoint placeholderPosition (segments : list string) : option nat :=
  match segments with
  | [] => None
  | seg :: rest =>
      if GoStrings.Contains seg indexVar then Some 0
      else S <$> placeholderPosition rest
  end.

(** Section 4.2 of the spec on [getIndexName], as it is worded. *)
Definition getIndexName_spec (endpointPattern requestPath : string) : list string :=
  if negb (GoStrings.Contains endpointPattern indexVar) then []
  else
    let patternSegments := GoStrings.Split endpointPattern slash in
    let pathSegments := GoStrings.Split requestPath slash in
    if decide (length patternSegments ≠ length pathSegments) then []
    else
      match placeholderPosition patternSegments ≫= (pathSegments !!.) with
      | Some segment => map GoStrings.TrimSpace (GoStrings.Split segment comma)
      | None => []
      end.

(** A registered endpoint of [a] matches the request, as [categorize]
    tests it. *)
Definition specMatches `{GoLib} (a : api) (pattern method path : string) : Prop :=
  regexp_MatchString pattern path = (true, None) ∧
  Util.Contains (api_Methods a) method = true ∧
  matchKeywords a path = true.

End Spec.

(** ** Further notions used in the statements *)

Module Props.
Import Acl Op User Es.

(** An option made by one of the five constructors of [user.go]. *)
Inductive standard : Options → Prop :=
| standard_IsAdmin isAdmin : standard (With.IsAdmin isAdmin)
| standard_ACLs acls : standard (With.ACLs acls)
| standard_Email email : standard (With.Email email)
| standard_Ops ops : standard (With.Ops ops)
| standard_Indices indices : standard (With.Indices indices).

(** An option made by one of the five constructors without a nil
    argument. *)
Inductive nonNil : Options → Prop :=
| nonNil_IsAdmin b : nonNil (With.IsAdmin (Some b))
| nonNil_ACLs l : nonNil (With.ACLs (Some l))
| nonNil_Email email : nonNil (With.Email email)
| nonNil_Ops l : nonNil (With.Ops (Some l))
| nonNil_Indices l : nonNil (With.Indices (Some l)).

(** The option returns no error, whatever user it is applied to. *)
Definition succeeds (o : Options) : Prop := ∀ u, (o u).2 = None.

(** The option returns the error [e], whatever user it is applied to. *)
Definition failsWith (o : Options) (e : NilError) : Prop := ∀ u, (o u).2 = Some e.

(** The byte [c] occurs in [s]. *)
Fixpoint occurs (c : ascii) (s : string) : Prop :=
  match s with
  | "" => False
  | String c' t => c = c' ∨ occurs c t
  end.

(** What [categorize] returns for the endpoint [endpoint] of [a] once it
    matched: the category with the names [getIndexName] returns, or the
    panic of [getIndexName]. *)
Definition answerOf (a : api) (endpoint method path : string) : outcome category :=
  match getIndexName endpoint path with
  | Returned indices => Returned (api_acl a, getOp (api_Methods a) method, indices)
  | Panicked msg => Panicked msg
  end.

Section WithLib.
Context `{GoLib}.

(** The three filters in a row: the ACL filter, then the operation
    filter, then the resource filter, then [h]. *)
Definition enforcement (h : HandlerFunc) : HandlerFunc :=
  validateACL (validateOp (validateIndices h)).

End WithLib.

(** A small backend to run [dao.go] on: the world is the list of patches
    made so far, patching the user ["bad"] fails, hashing prefixes the
    password, and the environment is empty. *)
Definition logBackend : Users.Backend := {|
  Users.World := list (string * gmap string string);
  Users.error := string;
  Users.UserRest := unit;
  Users.util_GetVersion := fun _ => 7%Z;
  Users.getRawUsersEs6 := fun w => (w, ("", None));
  Users.getRawUsersEs7 := fun w => (w, ("", None));
  Users.patchUserEs6 := fun username patch w =>
    (w ++ [(username, patch)], ("", if decide (username = "bad") then Some "boom" else None));
  Users.patchUserEs7 := fun username patch w =>
    (w ++ [(username, patch)], ("", if decide (username = "bad") then Some "boom" else None));
  Users.json_Unmarshal_users := fun _ => ([], None);
  Users.bcrypt_GenerateFromPassword := fun password w => (w, ("hashed " +:+ password, None));
  Users.os_Getenv := fun _ _ => "";
  Users.user_NewAdmin := fun username password => inl (Users.MkUser unit username password "" ());
  Users.client_Index := fun _ _ _ w => (w, None);
  Users.client_Delete := fun _ _ w => (w, None)
|}.

End Props.

(** * Theorems *)

Import Acl Op User Es Spec.

(** ** Library models on examples *)

Example Split_example : GoStrings.Split "/a,b/_mapping" slash = [""; "a,b"; "_mapping"].
Proof. reflexivity. Qed.

Example TrimSpace_example : GoStrings.TrimSpace "  a b  " = "a b".
Proof. vm_compute. reflexivity. Qed.

Example MatchString_examples :
  GoRegexp.MatchString "prod-.*" "prod-1" = (true, None) ∧
  GoRegexp.MatchString "staging-.*" "prod-1" = (false, None) ∧
  GoRegexp.MatchString "^(a|b)+$" "abba" = (true, None) ∧
  GoRegexp.MatchString "^(a|b)+$" "abca" = (false, None) ∧
  GoRegexp.MatchString "a**" "a"
    = (false, Some (GoRegexp.MkError GoRegexp.ErrInvalidRepeatOp "**")).
Proof. vm_compute. done. Qed.

(** Whether a pattern compiles does not depend on the text: ["*"] alone is
    a repetition without an argument, for every text. *)
Lemma MatchString_star (s : string) :
  GoRegexp.MatchString "*" s
  = (false, Some (GoRegexp.MkError GoRegexp.ErrMissingRepeatArgument "*")).
Proof.
  unfold GoRegexp.MatchString.
  replace (GoRegexp.Parse "*")
    with (inr (GoRegexp.MkError GoRegexp.ErrMissingRepeatArgument "*")
          : GoRegexp.Regexp + GoRegexp.Error)
    by (vm_compute; reflexivity).
  reflexivity.
Qed.

(** Whether [regexp.MatchString] returns an error is decided by the
    pattern alone. *)
Lemma MatchString_error_by_pattern (pattern s s' : string) :
  (GoRegexp.MatchString pattern s).2 = (GoRegexp.MatchString pattern s').2.
Proof. unfold GoRegexp.MatchString. by destruct (GoRegexp.Parse pattern). Qed.

Lemma Contains_elem_of (l : list string) (s : string) :
  Util.Contains l s = true ↔ s ∈ l.
Proof.
  induction l as [|x l IH]; simpl.
  - rewrite elem_of_nil. split; [discriminate | done].
  - rewrite elem_of_cons. case_decide as Hx.
    + subst. split; [by left | done].
    + rewrite IH. split; [by right | intros [?|?]; [congruence | done]].
Qed.

(** ** [getOp] *)

(** C6. [getOp] gives Read for GET and HEAD, Write for PUT, Delete for
    DELETE, Read for POST when the accepted methods contain GET and Write
    for POST otherwise, and Read for every other method. *)
Theorem getOp_table (methods : list string) (method : string) :
  getOp methods "GET" = Read ∧
  getOp methods "HEAD" = Read ∧
  getOp methods "PUT" = Write ∧
  getOp methods "DELETE" = Delete ∧
  ("GET" ∈ methods → getOp methods "POST" = Read) ∧
  ("GET" ∉ methods → getOp methods "POST" = Write) ∧
  (method ∉ ["GET"; "HEAD"; "PUT"; "DELETE"; "POST"] → getOp methods method = Read).
Proof.
  repeat split; try reflexivity.
  - intros Hin. apply Contains_elem_of in Hin.
    unfold getOp, http.MethodGet, http.MethodPost in *. simpl. by rewrite Hin.
  - intros Hin. unfold getOp, http.MethodGet, http.MethodPost in *. simpl.
    destruct (Util.Contains methods "GET") eqn:E; [|done].
    by apply Contains_elem_of in E.
  - intros Hother. unfold getOp.
    repeat case_decide; try reflexivity; subst; exfalso; apply Hother;
      rewrite !elem_of_cons; auto 10.
Qed.

Lemma getOp_table_witness :
  getOp ["GET"; "POST"] "POST" = Read ∧
  getOp ["POST"] "POST" = Write ∧
  getOp ["GET"; "POST"] "PATCH" = Read.
Proof.
  split; [|split].
  - destruct (getOp_table ["GET"; "POST"] "POST") as (_ & _ & _ & _ & Hpost & _).
    apply Hpost. rewrite elem_of_cons. by left.
  - destruct (getOp_table ["POST"] "POST") as (_ & _ & _ & _ & _ & Hpost & _).
    apply Hpost. by intros ?%list_elem_of_singleton.
  - destruct (getOp_table ["GET"; "POST"] "PATCH") as (_ & _ & _ & _ & _ & _ & Hother).
    apply Hother. rewrite !elem_of_cons, elem_of_nil.
    by intros [?|[?|[?|[?|[?|[]]]]]].
Defined.

(** ** [GetPatch] *)

Lemma lookup_insert_when_eq {P : Prop} `{Decision P} (m : gmap string value)
    (k : string) (v : value) :
  (if decide P then <[k := v]> m else m) !! k = if decide P then Some v else m !! k.
Proof. case_decide; by simplify_map_eq. Qed.

Lemma lookup_insert_when_ne {P : Prop} `{Decision P} (m : gmap string value)
    (k j : string) (v : value) :
  k ≠ j → (if decide P then <[k := v]> m else m) !! j = m !! j.
Proof. intros. case_decide; by simplify_map_eq. Qed.

Lemma lookup_insert_some_eq {A : Type} (o : option A) (f : A → value)
    (m : gmap string value) (k : string) :
  match o with Some x => <[k := f x]> m | None => m end !! k
  = match o with Some x => Some (f x) | None => m !! k end.
Proof. destruct o; by simplify_map_eq. Qed.

Lemma lookup_insert_some_ne {A : Type} (o : option A) (f : A → value)
    (m : gmap string value) (k j : string) :
  k ≠ j → match o with Some x => <[k := f x]> m | None => m end !! j = m !! j.
Proof. intros. destruct o; by simplify_map_eq. Qed.

Ltac patch_lookup :=
  repeat first
    [ rewrite lookup_insert_some_ne by congruence
    | rewrite lookup_insert_when_ne by congruence
    | rewrite lookup_insert_some_eq
    | rewrite lookup_insert_when_eq ];
  rewrite ?lookup_empty.

(** C5. [GetPatch] returns no error and a mapping that holds, for every
    field name, the field's value exactly when the field is not at its
    default (a non-empty string, a set admin flag, a non-nil slice) and
    nothing otherwise; a delta with only the email set gives the mapping
    whose only key is [email]. *)
Theorem GetPatch_non_default_fields `{GoLib} :
  (∀ u, (GetPatch u).2 = None) ∧
  (∀ u k, (GetPatch u).1 !! k = patchField u k) ∧
  (∀ e, e ≠ "" →
     GetPatch (MkUser "" "" None None e None None) = ({["email" := VString e]}, None)).
Proof.
  split; [done|]. split.
  - intros [id pw adm acls email ops idx] k. unfold GetPatch, patchField.
    cbv zeta. cbn [fst UserId Password IsAdmin ACLs Email Ops Indices].
    repeat match goal with
           | |- context [decide (k = ?c)] => destruct (decide (k = c)) as [->|?]
           end;
      patch_lookup; repeat case_decide; try done; try congruence;
      by destruct adm, acls, ops, idx.
  - intros e He. unfold GetPatch. cbn.
    case_decide; [|done]. done.
Qed.

Lemma GetPatch_non_default_fields_witness :
  GetPatch (H := goLib) (MkUser "" "" None None "a@b.c" None None)
  = ({["email" := VString "a@b.c"]}, None).
Proof.
  destruct (GetPatch_non_default_fields (H := goLib)) as (_ & _ & Hemail).
  apply Hemail. discriminate.
Defined.

(** ** [CanAccessIndex] *)

Section CanAccessIndexFacts.
Context `{GoLib}.

(** Patterns that are valid and do not match are passed over. *)
Lemma CanAccessIndex_loop_skip (l1 l2 : list string) (name : string) :
  Forall (fun q => rejects q name) l1 →
  CanAccessIndex_loop (l1 ++ l2) name = CanAccessIndex_loop l2 name.
Proof.
  induction 1 as [|q l1 Hq _ IH]; [done|].
  simpl. unfold rejects in Hq. by rewrite Hq.
Qed.

(** The loop ends at the first pattern that matches or is invalid, or
    after the last pattern. *)
Lemma CanAccessIndex_loop_cases (l : list string) (name : string) :
  (Forall (fun q => rejects q name) l ∧ CanAccessIndex_loop l name = (false, None)) ∨
  (∃ l1 p l2, l = l1 ++ p :: l2 ∧ Forall (fun q => rejects q name) l1 ∧
     ((matches p name ∧ CanAccessIndex_loop l name = (true, None)) ∨
      (∃ e, invalidWith p name e ∧ CanAccessIndex_loop l name = (false, Some e)))).
Proof.
  induction l as [|q l IH]; [by left|].
  simpl. destruct (regexp_MatchString q name) as [matched [e|]] eqn:Hq.
  - right. exists [], q, l. split_and!; [done|constructor|].
    right. exists e. unfold invalidWith. by rewrite Hq.
  - destruct matched.
    + right. exists [], q, l. split_and!; [done|constructor|]. by left.
    + destruct IH as [[Hall Hres]|(l1 & p & l2 & -> & Hall & Hres)].
      * left. split; [by constructor|done].
      * right. exists (q :: l1), p, l2. split_and!; [done|by constructor|done].
Qed.

End CanAccessIndexFacts.

(** C1. On the code, an entity whose first stored pattern is ["*"] is
    refused for every name: [CanAccessIndex] hands ["*"] to
    [regexp.MatchString] as it is, where it is a repetition without an
    argument, and returns false with that error. *)
Theorem CanAccessIndex_star_is_an_error
    (id pw : string) (adm : option bool) (acls : option (list ACL)) (email : string)
    (ops : option (list Operation)) (rest : list string) (name : string) :
  CanAccessIndex (H := goLib) (MkUser id pw adm acls email ops (Some ("*" :: rest))) name
  = (false, Some (GoRegexp.MkError GoRegexp.ErrMissingRepeatArgument "*")).
Proof.
  unfold CanAccessIndex. cbn -[GoRegexp.MatchString].
  by rewrite MatchString_star.
Qed.

(** C2, as the spec words it, fails on the code: with the patterns
    [".*"] and ["("] the second is not a valid regular expression, yet
    the call for the name ["a"] returns true without an error, because the
    first pattern matches and the loop stops there. *)
Lemma canAccessResource_as_stated_fails :
  ¬ canAccessResource_as_stated (H := goLib)
      (MkUser "u" "" None None "" None (Some [".*"; "("])) "a".
Proof.
  intros [_ Herr].
  destruct Herr as [e He].
  - exists "(", (GoRegexp.MkError GoRegexp.ErrMissingParen "(").
    split; [|by vm_compute].
    cbn. rewrite !elem_of_cons. auto.
  - vm_compute in He. discriminate.
Qed.

(** C2, amended. [CanAccessIndex] visits the stored patterns in order and
    stops at the first one that matches the name or is not a valid
    regular expression.  It returns true without an error exactly when
    some stored pattern matches and every pattern stored before it is
    valid and does not match; it returns false with an error exactly when
    some stored pattern is invalid, with that error, and every pattern
    stored before it is valid and does not match; it returns false without
    an error exactly when every stored pattern is valid and none matches.
    Nothing else is returned. *)
Theorem CanAccessIndex_first_decisive_pattern `{GoLib} (u : User) (name : string) :
  let l := slice (Indices u) in
  let before (l1 : list string) := Forall (fun q => rejects q name) l1 in
  (CanAccessIndex u name = (true, None) ↔
     ∃ l1 p l2, l = l1 ++ p :: l2 ∧ before l1 ∧ matches p name) ∧
  (∀ e, CanAccessIndex u name = (false, Some e) ↔
     ∃ l1 p l2, l = l1 ++ p :: l2 ∧ before l1 ∧ invalidWith p name e) ∧
  (CanAccessIndex u name = (false, None) ↔ before l) ∧
  (CanAccessIndex u name = (true, None) ∨ CanAccessIndex u name = (false, None) ∨
   ∃ e, CanAccessIndex u name = (false, Some e)).
Proof.
  intros l before. unfold CanAccessIndex. fold l.
  assert (Hmatch : ∀ l1 p l2, before l1 → matches p name →
            CanAccessIndex_loop (l1 ++ p :: l2) name = (true, None)).
  { intros l1 p l2 Hl1 Hp. rewrite CanAccessIndex_loop_skip by done.
    simpl. unfold matches in Hp. by rewrite Hp. }
  assert (Hinv : ∀ l1 p l2 e, before l1 → invalidWith p name e →
            CanAccessIndex_loop (l1 ++ p :: l2) name = (false, Some e)).
  { intros l1 p l2 e Hl1 Hp. rewrite CanAccessIndex_loop_skip by done.
    simpl. unfold invalidWith in Hp.
    destruct (regexp_MatchString p name) as [b o]. simpl in Hp. by subst. }
  assert (Hnone : before l → CanAccessIndex_loop l name = (false, None)).
  { intros Hl. rewrite <- (app_nil_r l). by rewrite CanAccessIndex_loop_skip. }
  destruct (CanAccessIndex_loop_cases l name)
    as [[Hall Hres]|(l1 & p & l2 & Hl & Hl1 & [[Hp Hres]|(e & Hp & Hres)])].
  - rewrite Hres. split_and!.
    + split; [done|]. intros (l1 & p & l2 & Hl & Hl1 & Hp).
      rewrite Hl, Hmatch in Hres; done.
    + intros e. split; [done|]. intros (l1 & p & l2 & Hl & Hl1 & Hp).
      rewrite Hl, (Hinv _ _ _ e) in Hres; done.
    + done.
    + auto.
  - rewrite Hres. split_and!.
    + split; [|done]. intros _. by exists l1, p, l2.
    + intros e. split; [done|]. intros (l1' & p' & l2' & Hl' & Hl1' & Hp').
      rewrite Hl', (Hinv _ _ _ e) in Hres; done.
    + split; [done|]. intros Hall. by rewrite Hnone in Hres.
    + auto.
  - rewrite Hres. split_and!.
    + split; [done|]. intros (l1' & p' & l2' & Hl' & Hl1' & Hp').
      rewrite Hl', Hmatch in Hres; done.
    + intros e'. split.
      * intros [= <-]. by exists l1, p, l2.
      * intros (l1' & p' & l2' & Hl' & Hl1' & Hp').
        rewrite Hl', (Hinv _ _ _ e') in Hres by done. by simplify_eq.
    + split; [done|]. intros Hall. by rewrite Hnone in Hres.
    + right. right. by exists e.
Qed.

Lemma CanAccessIndex_first_decisive_pattern_witness :
  CanAccessIndex (H := goLib) (MkUser "u" "" None None "" None (Some [".*"; "("])) "a"
  = (true, None).
Proof.
  apply (CanAccessIndex_first_decisive_pattern (H := goLib)).
  exists [], ".*", ["("]. split_and!; [done|constructor|by vm_compute].
Defined.

(** ** The enforcement filters *)

Section FilterFacts.
Context `{GoLib}.

Lemma validateIndices_patterns_None (patterns : list string) (name : string) :
  validateIndices_patterns patterns name = None ↔ Forall (passes name) patterns.
Proof.
  induction patterns as [|p patterns IH]; simpl.
  - split; [constructor|done].
  - rewrite Forall_cons. unfold passes at 1.
    destruct (regexp_MatchString (indexPattern p) name) as [[] [e|]]; simpl;
      try (split; [done|by intros [[=] _]]).
    rewrite IH. intuition.
Qed.

Lemma validateIndices_patterns_Some (patterns : list string) (name : string) (x : written) :
  validateIndices_patterns patterns name = Some x →
  ∃ msg, x = WriteBackMessage msg http.StatusUnauthorized.
Proof.
  induction patterns as [|p patterns IH]; simpl; [done|].
  destruct (regexp_MatchString (indexPattern p) name) as [[] [e|]]; simpl;
    try (intros [= <-]; eauto; fail).
  exact IH.
Qed.

Lemma validateIndices_names_None (indices patterns : list string) :
  validateIndices_names indices patterns = None ↔
  Forall (fun name => Forall (passes name) patterns) indices.
Proof.
  induction indices as [|name indices IH]; simpl.
  - split; [constructor|done].
  - rewrite Forall_cons, <- validateIndices_patterns_None, <- IH.
    destruct (validateIndices_patterns patterns name); intuition congruence.
Qed.

Lemma validateIndices_names_Some (indices patterns : list string) (x : written) :
  validateIndices_names indices patterns = Some x →
  ∃ msg, x = WriteBackMessage msg http.StatusUnauthorized.
Proof.
  induction indices as [|name indices IH]; simpl; [done|].
  destruct (validateIndices_patterns patterns name) eqn:E; [|exact IH].
  intros [= <-]. by eapply validateIndices_patterns_Some.
Qed.

(** A filter that answers the request itself does not let it through. *)
Lemma answers_not_allows (filter : HandlerFunc → HandlerFunc) (w : ResponseWriter)
    (r : Request) (x : written) :
  answers filter w r x → ¬ allows filter w r.
Proof.
  intros Hans Hall.
  specialize (Hans (fun w _ => w)). specialize (Hall (fun w _ => w)).
  rewrite Hall in Hans. apply (f_equal length) in Hans.
  rewrite length_app in Hans. simpl in Hans. lia.
Qed.

End FilterFacts.

(** C3, as the spec words it, fails on the code: the stored pattern
    [\*] is a valid regular expression that matches only a name holding
    a literal star, so it does not match ["a"]; the filter matches
    [\.*] instead, which matches every name, and lets the request for
    ["a"] through. *)
Lemma resourceFilter_as_stated_fails :
  ¬ resourceFilter_as_stated (H := goLib)
      (MkUser "u" "" None None "" None (Some ["\*"])) ["a"].
Proof.
  intros Hclaim.
  assert (Hm : matches (H := goLib) "\*" "a").
  { apply (Hclaim [] Search Read).
    - intros h. reflexivity.
    - rewrite list_elem_of_singleton. done.
    - cbn. rewrite list_elem_of_singleton. done. }
  vm_compute in Hm. discriminate.
Qed.

(** C3, amended. For a request with a non-empty resource list the
    Resource filter lets the request through exactly when, for every
    resolved name, every stored pattern passes for that name once each
    ["*"] in it has been replaced by [".*"] (the rewritten pattern is a
    valid regular expression and matches the name: AND across patterns);
    as soon as one rewritten pattern is invalid or fails to match one
    name, the filter answers with an unauthorized result and the next
    handler is not called.  In particular the entity with the patterns
    ["prod-.*"] and ["staging-.*"] is denied for the resource list
    [["prod-1"]], although [CanAccessIndex] is true for ["prod-1"]. *)
Theorem resourceFilter_all_rewritten_patterns_match :
  (∀ (L : GoLib) (u : User) (indices : list string) w a o,
     indices ≠ [] →
     let r := requestFor a o indices u in
     (allows validateIndices w r ↔
        ∀ name p, name ∈ indices → p ∈ slice (Indices u) → passes name p) ∧
     ((∃ name p, name ∈ indices ∧ p ∈ slice (Indices u) ∧ ¬ passes name p) →
        ∃ msg, answers validateIndices w r (WriteBackMessage msg http.StatusUnauthorized))) ∧
  (let u := MkUser "u" "" None None "" None (Some ["prod-.*"; "staging-.*"]) in
   CanAccessIndex (H := goLib) u "prod-1" = (true, None) ∧
   ∀ w a o,
     answers (validateIndices (H := goLib)) w (requestFor a o ["prod-1"] u)
       (WriteBackMessage "User is unauthorized to access index prod-1"
          http.StatusUnauthorized)).
Proof.
  split.
  - intros L u indices w a o Hne r.
    assert (Hall : validateIndices_names indices (slice (Indices u)) = None ↔
              ∀ name p, name ∈ indices → p ∈ slice (Indices u) → passes name p).
    { rewrite validateIndices_names_None, Forall_forall.
      setoid_rewrite Forall_forall. naive_solver. }
    assert (Hstep : ∀ h, validateIndices h w r =
              match validateIndices_names indices (slice (Indices u)) with
              | Some x => w ++ [x]
              | None => h w r
              end).
    { intros h. unfold validateIndices, permission_FromContext.
      cbn [ctx_permission ctx_index r requestFor].
      destruct indices; [done|]. reflexivity. }
    destruct (validateIndices_names indices (slice (Indices u))) as [x|] eqn:E.
    + destruct (validateIndices_names_Some _ _ _ E) as [msg ->].
      assert (Hans : answers validateIndices w r (WriteBackMessage msg http.StatusUnauthorized))
        by (intros h; apply Hstep).
      split.
      * split.
        -- intros Hal. by apply answers_not_allows in Hans.
        -- intros Hp. by apply Hall in Hp.
      * intros _. by exists msg.
    + split.
      * split; [intros _; by apply Hall | intros _ h; apply Hstep].
      * intros (name & p & Hn & Hp & Hnot). exfalso. apply Hnot.
        by apply Hall.
  - split; [by vm_compute|]. intros w a o h. reflexivity.
Qed.

Lemma resourceFilter_all_rewritten_patterns_match_witness :
  allows (validateIndices (H := goLib)) []
    (requestFor Search Read ["prod-1"; "prod-2"]
       (MkUser "u" "" None None "" None (Some ["prod-*"; "*"]))).
Proof.
  destruct resourceFilter_all_rewritten_patterns_match as [Hgen _].
  apply (Hgen goLib (MkUser "u" "" None None "" None (Some ["prod-*"; "*"]))
           ["prod-1"; "prod-2"] [] Search Read); [done|].
  intros name p Hname Hp. cbn in Hp.
  rewrite !elem_of_cons, elem_of_nil in Hname, Hp.
  destruct Hname as [->|[->|[]]]; destruct Hp as [->|[->|[]]]; by vm_compute.
Defined.

(** C4, as the spec words it, fails on the code: for the entity whose
    only pattern is ["("], which is not a valid regular expression, the
    cluster-level request is not let through, and the answer is a
    bad-request result that carries the error, not an unauthorized
    one. *)
Lemma clusterGate_as_stated_fails :
  ¬ clusterGate_as_stated (H := goLib) (MkUser "u" "" None None "" None (Some ["("])).
Proof.
  intros Hclaim.
  destruct (Hclaim [] Search Read) as [_ Hdeny].
  assert (Hbad : answers (validateIndices (H := goLib)) []
            (requestFor Search Read [] (MkUser "u" "" None None "" None (Some ["("])))
            (WriteBackError "error parsing regexp: missing closing ): `(`"
               http.StatusBadRequest)).
  { intros h. reflexivity. }
  specialize (Hdeny (answers_not_allows _ _ _ _ Hbad) (fun w _ => w)).
  specialize (Hbad (fun w _ => w)). rewrite Hbad in Hdeny. discriminate.
Qed.

(** C4, amended. For a request with an empty resource list the Resource
    filter lets the request through exactly when [CanAccessIndex("*")]
    returns true without an error; when [CanAccessIndex("*")] returns an
    error it answers with a bad-request result that carries the error's
    text; when [CanAccessIndex("*")] returns false without an error it
    answers with an unauthorized result that mentions cluster-level
    routes.  In the last two cases the next handler is not called. *)
Theorem clusterGate_follows_CanAccessIndex `{GoLib} (u : User) w a o :
  let r := requestFor a o [] u in
  (allows validateIndices w r ↔ CanAccessIndex u "*" = (true, None)) ∧
  (∀ b e, CanAccessIndex u "*" = (b, Some e) →
     answers validateIndices w r (WriteBackError (error_Error e) http.StatusBadRequest)) ∧
  (CanAccessIndex u "*" = (false, None) →
     answers validateIndices w r
       (WriteBackError "User is unauthorized to access cluster level routes"
          http.StatusUnauthorized)).
Proof.
  intros r.
  assert (Hstep : ∀ h, validateIndices h w r =
            match CanAccessIndex u "*" with
            | (_, Some e) => w ++ [WriteBackError (error_Error e) http.StatusBadRequest]
            | (false, None) =>
                w ++ [WriteBackError "User is unauthorized to access cluster level routes"
                        http.StatusUnauthorized]
            | (true, None) => h w r
            end).
  { intros h. unfold validateIndices, permission_FromContext.
    cbn [ctx_permission ctx_index r requestFor length Nat.eqb].
    by destruct (CanAccessIndex u "*") as [[] [e|]]. }
  destruct (CanAccessIndex u "*") as [b [e|]] eqn:E.
  - assert (Hans : answers validateIndices w r
              (WriteBackError (error_Error e) http.StatusBadRequest))
      by (intros h; rewrite Hstep; by destruct b).
    split_and!.
    + split; [|done]. intros Hal. by apply answers_not_allows in Hans.
    + by intros ? ? [= _ <-].
    + done.
  - destruct b.
    + split_and!; [|done..]. split; [done|]. intros _ h. apply Hstep.
    + assert (Hans : answers validateIndices w r
                (WriteBackError "User is unauthorized to access cluster level routes"
                   http.StatusUnauthorized))
        by (intros h; apply Hstep).
      split_and!; [|done..].
      split; [|done]. intros Hal. by apply answers_not_allows in Hans.
Qed.

Lemma clusterGate_follows_CanAccessIndex_witness :
  answers (validateIndices (H := goLib)) []
    (requestFor Search Read [] (MkUser "u" "" None None "" None (Some ["prod-.*"])))
    (WriteBackError "User is unauthorized to access cluster level routes"
       http.StatusUnauthorized) ∧
  answers (validateIndices (H := goLib)) []
    (requestFor Search Read [] (MkUser "u" "" None None "" None (Some ["("])))
    (WriteBackError "error parsing regexp: missing closing ): `(`" http.StatusBadRequest).
Proof.
  split.
  - destruct (clusterGate_follows_CanAccessIndex (H := goLib)
                (MkUser "u" "" None None "" None (Some ["prod-.*"])) [] Search Read)
      as (_ & _ & Hdeny).
    apply Hdeny. by vm_compute.
  - destruct (clusterGate_follows_CanAccessIndex (H := goLib)
                (MkUser "u" "" None None "" None (Some ["("])) [] Search Read)
      as (_ & Hbad & _).
    apply (Hbad false (GoRegexp.MkError GoRegexp.ErrMissingParen "(")). by vm_compute.
Defined.

(** C9. A filter that does not find the value it needs in the request's
    context (the ACL for [validateACL], the operation for [validateOp],
    the resource list for [validateIndices]) answers with an
    internal-error result: the next handler is not called and the status
    is not the unauthorized one. *)
Theorem filters_answer_internal_error_without_context `{GoLib}
    (w : ResponseWriter) (r : Request) :
  let internalError (filter : HandlerFunc → HandlerFunc) :=
    ∃ x, statusOf x = http.StatusInternalServerError ∧
         statusOf x ≠ http.StatusUnauthorized ∧
         answers filter w r x in
  (ctx_acl r = None → internalError validateACL) ∧
  (ctx_op r = None → internalError validateOp) ∧
  (ctx_index r = None → internalError validateIndices).
Proof.
  intros internalError. split_and!; intros Hnone.
  - exists (WriteBackError "An error occurred while validating request acl"
              http.StatusInternalServerError).
    split_and!; [done..|]. intros h. unfold validateACL, acl_FromContext. by rewrite Hnone.
  - exists (WriteBackError "An error occurred while validating request op"
              http.StatusInternalServerError).
    split_and!; [done..|]. intros h. unfold validateOp, op_FromContext. by rewrite Hnone.
  - destruct (ctx_permission r) as [u|] eqn:Hu.
    + exists (WriteBackMessage "Internal server error" http.StatusInternalServerError).
      split_and!; [done..|]. intros h. unfold validateIndices, permission_FromContext.
      by rewrite Hu, Hnone.
    + exists (WriteBackError "An error occurred while validating request indices"
                http.StatusInternalServerError).
      split_and!; [done..|]. intros h. unfold validateIndices, permission_FromContext.
      by rewrite Hu.
Qed.

Lemma filters_answer_internal_error_without_context_witness :
  (∃ x, statusOf x = 500 ∧ statusOf x ≠ 401 ∧
        answers (validateACL (H := goLib)) [] (MkRequest None None None None) x) ∧
  (∃ x, statusOf x = 500 ∧ statusOf x ≠ 401 ∧
        answers (validateOp (H := goLib)) [] (MkRequest None None None None) x) ∧
  (∃ x, statusOf x = 500 ∧ statusOf x ≠ 401 ∧
        answers (validateIndices (H := goLib)) []
          (MkRequest (Some Search) (Some Read) None
             (Some (MkUser "u" "" None None "" None (Some [".*"])))) x).
Proof.
  split_and!.
  - by apply (filters_answer_internal_error_without_context (H := goLib) []
                (MkRequest None None None None)).
  - by apply (filters_answer_internal_error_without_context (H := goLib) []
                (MkRequest None None None None)).
  - by apply (filters_answer_internal_error_without_context (H := goLib) []
                (MkRequest (Some Search) (Some Read) None
                   (Some (MkUser "u" "" None None "" None (Some [".*"]))))).
Defined.

(** ** [categorize] *)

Lemma categorize_endpoints_none `{GoLib} (a : api) (entries : list (string * string))
    (method path : string) :
  (∀ endpoint pattern, (endpoint, pattern) ∈ entries →
     ¬ specMatches a pattern method path) →
  categorize_endpoints a entries method path = None.
Proof.
  induction entries as [|[endpoint pattern] entries IH]; intros Hno; [done|].
  simpl.
  assert (Hrest : categorize_endpoints a entries method path = None).
  { apply IH. intros e p Hin. apply (Hno e p). rewrite elem_of_cons. by right. }
  assert (Hhere : ¬ specMatches a pattern method path).
  { apply (Hno endpoint pattern). rewrite elem_of_cons. by left. }
  unfold specMatches in Hhere.
  destruct (regexp_MatchString pattern path) as [ok [e|]]; [done|].
  destruct ok; [|done].
  destruct (Util.Contains (api_Methods a) method); [|done].
  destruct (matchKeywords a path); [|done].
  by destruct Hhere.
Qed.

(** C8. When no registered endpoint matches the method and the path,
    [categorize] returns the default: ACL miscellaneous, operation Read
    and an empty resource list, and it does so by returning, not by
    failing. *)
Theorem categorize_falls_back_to_misc `{GoLib} (specs : list api) (method path : string) :
  (∀ a endpoint pattern,
     a ∈ specs → (endpoint, pattern) ∈ api_pathRegexps a →
     ¬ specMatches a pattern method path) →
  categorize specs method path = Returned (Misc, Read, []).
Proof.
  induction specs as [|a specs IH]; intros Hno; [done|].
  simpl. rewrite categorize_endpoints_none.
  - apply IH. intros b e p Hb. apply (Hno b e p). rewrite elem_of_cons. by right.
  - intros e p. apply (Hno a e p). rewrite elem_of_cons. by left.
Qed.

Lemma categorize_falls_back_to_misc_witness :
  categorize (H := goLib)
    [MkApi Search ["GET"; "POST"] [("/{index}/_search", "^/.+/_search$")] {["_search"]};
     MkApi Bulk ["POST"] [("/_bulk", "^/_bulk$"); ("/{index}/_bulk", "^/.+/_bulk$")]
       {["_bulk"]}]
    "GET" "/idx/_unknown"
  = Returned (Misc, Read, []).
Proof.
  apply (categorize_falls_back_to_misc (H := goLib)).
  intros a endpoint pattern Ha Hin [Hre _].
  rewrite !elem_of_cons, elem_of_nil in Ha.
  destruct Ha as [->|[->|[]]]; cbn in Hin;
    rewrite !elem_of_cons, elem_of_nil in Hin;
    repeat (destruct Hin as [[= -> ->]|Hin]; [by vm_compute in Hre|]);
    done.
Defined.

(** ** [getIndexName] *)

Example getIndexName_mapping_example :
  getIndexName "/{index}/_mapping" "/a,b/_mapping" = Returned ["a"; "b"] ∧
  getIndexName "/{index}/_mapping" "/a , b/_mapping" = Returned ["a"; "b"] ∧
  getIndexName "/_cat/indices" "/_cat/indices" = Returned [] ∧
  getIndexName "/{index}/_doc" "/a" = Returned [].
Proof. vm_compute. done. Qed.

(** The loop passes over the segments that are not the placeholder. *)
Lemma getIndexName_loop_skip (endpointTokens requestPathTokens : list string) (n k i : nat) :
  (∀ j token, i ≤ j < i + k → endpointTokens !! j = Some token → token ≠ indexVar) →
  i + k ≤ length endpointTokens →
  getIndexName_loop endpointTokens requestPathTokens (k + n) i
  = getIndexName_loop endpointTokens requestPathTokens n (i + k).
Proof.
  revert i. induction k as [|k IH]; intros i Hskip Hlen.
  - by rewrite Nat.add_0_r.
  - simpl. destruct (endpointTokens !! i) as [token|] eqn:Hi.
    + rewrite decide_False by (apply (Hskip i); [lia|done]).
      rewrite IH; [f_equal; lia| |lia].
      intros j t Hj. apply Hskip. lia.
    + apply lookup_ge_None in Hi. lia.
Qed.

(** When the loop has iterations left beyond the last segment and no
    segment is the placeholder, it indexes past the end. *)
Lemma getIndexName_loop_panics (endpointTokens requestPathTokens : list string) (n i : nat) :
  indexVar ∉ endpointTokens →
  i ≤ length endpointTokens < i + n →
  getIndexName_loop endpointTokens requestPathTokens n i = Panicked "index out of range".
Proof.
  intros Hnot. revert i. induction n as [|n IH]; intros i Hi; [lia|].
  simpl. destruct (endpointTokens !! i) as [token|] eqn:Hl; [|done].
  rewrite decide_False.
  - apply IH. apply lookup_lt_Some in Hl. lia.
  - intros ->. apply Hnot. by eapply list_elem_of_lookup_2.
Qed.

Lemma placeholderPosition_before (segments : list string) (i j : nat) (token : string) :
  placeholderPosition segments = Some i → j < i →
  segments !! j = Some token → token ≠ indexVar.
Proof.
  revert i j. induction segments as [|seg segments IH]; intros i j; simpl; [done|].
  destruct (GoStrings.Contains seg indexVar) eqn:Hc.
  - intros [= <-]. lia.
  - destruct (placeholderPosition segments) as [i'|]; [|done]. simpl.
    intros [= <-]. destruct j as [|j]; simpl.
    + intros _ [= ->] ->. by vm_compute in Hc.
    + intros Hj. apply (IH i' j); [done|lia].
Qed.

(** Where the loop gets as far as the placeholder, the code returns what
    the spec describes: the placeholder is a whole segment, no segment
    before it holds the placeholder, and its position is smaller than the
    length of the path in bytes. *)
Lemma getIndexName_refines_spec (endpoint requestPath : string) (i : nat) :
  let endpointTokens := GoStrings.Split endpoint slash in
  length endpointTokens = length (GoStrings.Split requestPath slash) →
  placeholderPosition endpointTokens = Some i →
  endpointTokens !! i = Some indexVar →
  i < String.length requestPath →
  GoStrings.Contains endpoint indexVar = true →
  getIndexName endpoint requestPath = Returned (getIndexName_spec endpoint requestPath).
Proof.
  intros endpointTokens Hlen Hpos Hi Hshort Hc.
  unfold getIndexName, getIndexName_spec. rewrite Hc. cbn [negb].
  fold endpointTokens. rewrite Hlen, Nat.eqb_refl. cbn [negb].
  rewrite decide_False by (intros Hne; by apply Hne).
  rewrite Hpos. cbn [mbind option_bind].
  replace (String.length requestPath) with (i + S (String.length requestPath - S i)) by lia.
  rewrite getIndexName_loop_skip.
  - simpl. rewrite Hi. rewrite decide_True by done.
    destruct (GoStrings.Split requestPath slash !! i) as [names|] eqn:Hn; [done|].
    apply lookup_ge_None in Hn. apply lookup_lt_Some in Hi. lia.
  - intros j token Hj. apply (placeholderPosition_before _ i j); [done|lia].
  - apply lookup_lt_Some in Hi. lia.
Qed.

(** C7. On the code the loop of [getIndexName] runs over the bytes of the
    path, not over the segments, so the placeholder's segment is not
    always reached.  For the pattern [/{index}] and the path [/] the
    segment counts agree and the placeholder is segment 1, whose path
    segment is empty and splits into the one-element list [[""]], as the
    spec describes; the code stops after one iteration, the length of
    [/], and returns the empty list.  For the pattern
    [/logs-{index}/_search] and the path [/logs-a/_search] the spec
    describes the list [["logs-a"]]; the code returns nothing, it
    panics. *)
Theorem getIndexName_stops_at_path_length :
  (GoStrings.Contains "/{index}" indexVar = true ∧
   length (GoStrings.Split "/{index}" slash) = length (GoStrings.Split "/" slash) ∧
   getIndexName_spec "/{index}" "/" = [""] ∧
   getIndexName "/{index}" "/" = Returned []) ∧
  (getIndexName_spec "/logs-{index}/_search" "/logs-a/_search" = ["logs-a"] ∧
   getIndexName "/logs-{index}/_search" "/logs-a/_search" = Panicked "index out of range").
Proof. vm_compute. done. Qed.

(** C10. On the code [getIndexName] indexes past the end of its segment
    slices: when the pattern holds the placeholder, the segment counts
    agree, no segment of the pattern is the placeholder alone and the path
    has more bytes than segments, the call panics with an index out of
    range. *)
Theorem getIndexName_index_out_of_range (endpoint requestPath : string) :
  GoStrings.Contains endpoint indexVar = true →
  length (GoStrings.Split endpoint slash) = length (GoStrings.Split requestPath slash) →
  indexVar ∉ GoStrings.Split endpoint slash →
  length (GoStrings.Split requestPath slash) < String.length requestPath →
  getIndexName endpoint requestPath = Panicked "index out of range".
Proof.
  intros Hc Hlen Hnot Hlong. unfold getIndexName.
  rewrite Hc, Hlen, Nat.eqb_refl. cbn [negb].
  apply getIndexName_loop_panics; [done|lia].
Qed.

Lemma getIndexName_index_out_of_range_witness :
  getIndexName "/logs-{index}/_search" "/logs-a/_search" = Panicked "index out of range".
Proof.
  apply getIndexName_index_out_of_range.
  - by vm_compute.
  - by vm_compute.
  - replace (GoStrings.Split "/logs-{index}/_search" slash)
      with [""; "logs-{index}"; "_search"] by reflexivity.
    rewrite !elem_of_cons, elem_of_nil. by intros [?|[?|[?|[]]]].
  - replace (GoStrings.Split "/logs-a/_search" slash)
      with [""; "logs-a"; "_search"] by reflexivity.
    cbn. lia.
Defined.

(** * Further properties of the code *)

Import Props.

(** ** [user.go] *)

Lemma HasACL_elem_of (u : User.User) (acl : ACL) :
  HasACL u acl = true ↔ acl ∈ slice (ACLs u).
Proof.
  unfold HasACL. induction (slice (ACLs u)) as [|a l IH]; simpl.
  - rewrite elem_of_nil. split; [discriminate|done].
  - rewrite elem_of_cons. case_decide; [by intuition|].
    rewrite IH. intuition congruence.
Qed.

Lemma Can_elem_of (u : User.User) (op : Operation) :
  Can u op = true ↔ op ∈ slice (Ops u).
Proof.
  unfold Can. induction (slice (Ops u)) as [|o l IH]; simpl.
  - rewrite elem_of_nil. split; [discriminate|done].
  - rewrite elem_of_cons. case_decide; [by intuition|].
    rewrite IH. intuition congruence.
Qed.

(** X1. [HasACL] and [Can] are exact membership in the granted ACLs and
    operations; a nil slice grants nothing. *)
Theorem HasACL_Can_are_membership (u : User.User) (acl : ACL) (op : Operation) :
  (HasACL u acl = true ↔ acl ∈ slice (ACLs u)) ∧
  (Can u op = true ↔ op ∈ slice (Ops u)) ∧
  (ACLs u = None → HasACL u acl = false) ∧
  (Ops u = None → Can u op = false).
Proof.
  split_and!.
  - apply HasACL_elem_of.
  - apply Can_elem_of.
  - unfold HasACL. by intros ->.
  - unfold Can. by intros ->.
Qed.

Lemma HasACL_Can_are_membership_witness :
  HasACL (User.MkUser "u" "" None None "" None None) Search = false ∧
  Can (User.MkUser "u" "" None None "" None None) Read = false.
Proof.
  destruct (HasACL_Can_are_membership (User.MkUser "u" "" None None "" None None) Search Read)
    as (_ & _ & Hacl & Hop).
  split; [by apply Hacl|by apply Hop].
Defined.

Lemma GetPatch_lookup `{GoLib} (u : User.User) (k : string) :
  (GetPatch u).1 !! k = patchField u k.
Proof.
  destruct u as [id pw adm acls email ops idx]. unfold GetPatch, patchField.
  cbv zeta. cbn [fst UserId Password IsAdmin ACLs Email Ops Indices].
  repeat match goal with
         | |- context [decide (k = ?c)] => destruct (decide (k = c)) as [->|?]
         end;
    patch_lookup; repeat case_decide; try done; try congruence;
    by destruct adm, acls, ops, idx.
Qed.

Lemma patchField_keys (u : User.User) :
  patchField u "user_id" = (if decide (UserId u = "") then None else Some (VString (UserId u))) ∧
  patchField u "password" = (if decide (Password u = "") then None else Some (VString (Password u))) ∧
  patchField u "is_admin" = VBoolPtr <$> IsAdmin u ∧
  patchField u "email" = (if decide (Email u = "") then None else Some (VString (Email u))) ∧
  patchField u "acls" = VACLs <$> ACLs u ∧
  patchField u "ops" = VOps <$> Ops u ∧
  patchField u "indices" = VStrings <$> Indices u.
Proof. repeat split; reflexivity. Qed.

(** X2. [GetPatch] loses nothing: two users that differ in any field,
    be it only a nil slice against an empty one, have different
    patches. *)
Theorem GetPatch_tells_users_apart `{GoLib} (u u' : User.User) :
  u ≠ u' → (GetPatch u).1 ≠ (GetPatch u').1.
Proof.
  intros Hne Heq. apply Hne.
  assert (Hk : ∀ k, patchField u k = patchField u' k).
  { intros k. by rewrite <- !GetPatch_lookup, Heq. }
  destruct (patchField_keys u) as (K1 & K2 & K3 & K4 & K5 & K6 & K7).
  destruct (patchField_keys u') as (K1' & K2' & K3' & K4' & K5' & K6' & K7').
  pose proof (Hk "user_id") as H1. rewrite K1, K1' in H1.
  pose proof (Hk "password") as H2. rewrite K2, K2' in H2.
  pose proof (Hk "is_admin") as H3. rewrite K3, K3' in H3.
  pose proof (Hk "email") as H4. rewrite K4, K4' in H4.
  pose proof (Hk "acls") as H5. rewrite K5, K5' in H5.
  pose proof (Hk "ops") as H6. rewrite K6, K6' in H6.
  pose proof (Hk "indices") as H7. rewrite K7, K7' in H7.
  clear - H1 H2 H3 H4 H5 H6 H7.
  destruct u as [id pw adm acls email ops idx], u' as [id' pw' adm' acls' email' ops' idx'].
  cbn [UserId Password IsAdmin ACLs Email Ops Indices] in *.
  assert (id = id') by (clear -H1; repeat case_decide; congruence).
  assert (pw = pw') by (clear -H2; repeat case_decide; congruence).
  assert (email = email') by (clear -H4; repeat case_decide; congruence).
  assert (adm = adm') by (clear -H3; destruct adm, adm'; cbn in *; congruence).
  assert (acls = acls') by (clear -H5; destruct acls, acls'; cbn in *; congruence).
  assert (ops = ops') by (clear -H6; destruct ops, ops'; cbn in *; congruence).
  assert (idx = idx') by (clear -H7; destruct idx, idx'; cbn in *; congruence).
  congruence.
Qed.

Lemma GetPatch_tells_users_apart_witness :
  (GetPatch (H := goLib) (User.MkUser "" "" None None "" None None)).1
  ≠ (GetPatch (H := goLib) (User.MkUser "" "" None (Some []) "" None None)).1.
Proof. apply (GetPatch_tells_users_apart (H := goLib)). discriminate. Defined.

(** A standard option leaves the identity alone and never makes a slice
    nil. *)
Lemma standard_step (o : Options) (u u' : User.User) :
  standard o → o u = (u', None) →
  UserId u' = UserId u ∧ Password u' = Password u ∧
  (is_Some (Indices u) → is_Some (Indices u')) ∧
  (is_Some (ACLs u) → is_Some (ACLs u')) ∧
  (is_Some (Ops u) → is_Some (Ops u')).
Proof.
  intros [b|acls|email|ops|indices] Hstep; cbv in Hstep.
  - by simplify_eq.
  - destruct acls; simplify_eq. by split_and!.
  - by simplify_eq.
  - destruct ops; simplify_eq. by split_and!.
  - destruct indices; simplify_eq. by split_and!.
Qed.

Lemma standard_succeeds_or_fails (o : Options) :
  standard o → succeeds o ∨ ∃ e, failsWith o e.
Proof.
  intros [b|[l|]|email|[l|]|[l|]]; try (by left); right.
  - by exists NilACLsError.
  - by exists NilOpsError.
  - by exists NilIndicesError.
Qed.

Lemma New_loop_invariant (opts : list Options) (u0 u : User.User) :
  Forall standard opts → New_loop u0 opts = inl u →
  UserId u = UserId u0 ∧ Password u = Password u0 ∧
  (is_Some (Indices u0) → is_Some (Indices u)) ∧
  (is_Some (ACLs u0) → is_Some (ACLs u)) ∧
  (is_Some (Ops u0) → is_Some (Ops u)).
Proof.
  intros Hstd. revert u0. induction Hstd as [|o opts Ho _ IH]; intros u0; simpl.
  - by intros [= ->].
  - destruct (o u0) as [u1 [e|]] eqn:Hstep; [done|]. intros Hrest.
    destruct (standard_step o u0 u1 Ho Hstep) as (Hid1 & Hpw1 & ? & ? & ?).
    destruct (IH u1 Hrest) as (Hid2 & Hpw2 & ? & ? & ?).
    split_and!; [congruence|congruence|auto..].
Qed.

(** X3. A user made by [New] from options of the five constructors has
    the identifier and the password [New] was given, an [Indices] slice
    that is not nil, and [ACLs] and [Ops] slices that are not nil when the
    package defaults are not. *)
Theorem New_keeps_identity_and_slices (defaultIsAdmin : bool)
    (defaultACLs : option (list ACL)) (defaultOps : option (list Operation))
    (userId password : string) (opts : list Options) (u : User.User) :
  Forall standard opts →
  New defaultIsAdmin defaultACLs defaultOps userId password opts = inl u →
  UserId u = userId ∧ Password u = password ∧ is_Some (Indices u) ∧
  (is_Some defaultACLs → is_Some (ACLs u)) ∧
  (is_Some defaultOps → is_Some (Ops u)).
Proof.
  intros Hstd Hnew. unfold New in Hnew.
  destruct (New_loop_invariant _ _ _ Hstd Hnew) as (? & ? & Hi & ? & ?).
  split_and!; [done..|by apply Hi|done|done].
Qed.

Lemma New_keeps_identity_and_slices_witness :
  ∃ u, New false (Some [Misc]) (Some [Read]) "alice" "secret"
         [With.Email "a@b.c"; With.Indices (Some ["logs-*"]); With.IsAdmin None] = inl u ∧
       UserId u = "alice" ∧ is_Some (Indices u).
Proof.
  eexists. split; [reflexivity|].
  pose proof (New_keeps_identity_and_slices false (Some [Misc]) (Some [Read]) "alice" "secret"
                [With.Email "a@b.c"; With.Indices (Some ["logs-*"]); With.IsAdmin None] _
                ltac:(repeat constructor) eq_refl) as (Hid & _ & Hidx & _).
  by split.
Defined.

Lemma New_loop_app (before rest : list Options) (u0 : User.User) :
  Forall succeeds before → ∃ u1, New_loop u0 (before ++ rest) = New_loop u1 rest.
Proof.
  intros Hb. revert u0. induction Hb as [|o before Ho _ IH]; intros u0; simpl.
  - by exists u0.
  - specialize (Ho u0). destruct (o u0) as [u1 err]. simpl in Ho. subst err. apply IH.
Qed.

(** X4. [New] runs the options in order and stops at the first that
    fails: with options of the five constructors it returns the error [e]
    exactly when some option fails with [e] and every option before it
    succeeds, and it returns a user exactly when every option succeeds. *)
Theorem New_fails_at_first_failing_option (defaultIsAdmin : bool)
    (defaultACLs : option (list ACL)) (defaultOps : option (list Operation))
    (userId password : string) (opts : list Options) :
  Forall standard opts →
  (∀ e, New defaultIsAdmin defaultACLs defaultOps userId password opts = inr e ↔
        ∃ before o after, opts = before ++ o :: after ∧
                          Forall succeeds before ∧ failsWith o e) ∧
  ((∃ u, New defaultIsAdmin defaultACLs defaultOps userId password opts = inl u) ↔
   Forall succeeds opts).
Proof.
  unfold New. generalize (User.MkUser userId password (Some defaultIsAdmin) defaultACLs ""
                            defaultOps (Some [])).
  intros u0 Hstd.
  assert (Hfail : ∀ u0 before o after e, Forall succeeds before → failsWith o e →
            New_loop u0 (before ++ o :: after) = inr e).
  { intros u1 before o after e Hb Ho.
    destruct (New_loop_app before (o :: after) u1 Hb) as [u2 ->]. simpl.
    specialize (Ho u2). destruct (o u2) as [u3 err]. simpl in Ho. by subst err. }
  assert (Hok : ∀ opts u0, Forall succeeds opts → ∃ u, New_loop u0 opts = inl u).
  { intros l u1 Hl. destruct (New_loop_app l [] u1 Hl) as [u2 Hu2].
    rewrite app_nil_r in Hu2. rewrite Hu2. by exists u2. }
  assert (Hcases : Forall succeeds opts ∨
            ∃ before o after e, opts = before ++ o :: after ∧
                                Forall succeeds before ∧ failsWith o e).
  { clear u0. induction Hstd as [|o opts Ho _ IH]; [by left|].
    destruct (standard_succeeds_or_fails o Ho) as [Hs|[e He]].
    - destruct IH as [Hall|(before & o' & after & e & -> & Hb & Ho')].
      + left. by constructor.
      + right. exists (o :: before), o', after, e. split_and!; [done|by constructor|done].
    - right. exists [], o, opts, e. split_and!; [done|constructor|done]. }
  split.
  - intros e. split.
    + intros Hres. destruct Hcases as [Hall|(before & o & after & e' & -> & Hb & Ho)].
      * destruct (Hok opts u0 Hall) as [u Hu]. congruence.
      * rewrite (Hfail u0 before o after e' Hb Ho) in Hres. simplify_eq.
        by exists before, o, after.
    + intros (before & o & after & -> & Hb & Ho). by apply Hfail.
  - split.
    + intros [u Hu]. destruct Hcases as [Hall|(before & o & after & e' & -> & Hb & Ho)];
        [done|]. rewrite (Hfail u0 before o after e' Hb Ho) in Hu. done.
    + apply Hok.
Qed.

Lemma New_fails_at_first_failing_option_witness :
  New true None None "alice" "secret"
    [With.Email "a@b.c"; With.Ops None; With.ACLs None] = inr NilOpsError.
Proof.
  destruct (New_fails_at_first_failing_option true None None "alice" "secret"
              [With.Email "a@b.c"; With.Ops None; With.ACLs None]
              ltac:(repeat constructor)) as [Hfail _].
  apply Hfail. exists [With.Email "a@b.c"], (With.Ops None), [With.ACLs None].
  split_and!; [done|by repeat constructor|done].
Defined.

Lemma nonNil_step (o : Options) (u : User.User) :
  nonNil o → ∃ u', o u = (u', None) ∧ UserId u' = UserId u ∧
                   (is_Some (IsAdmin u) → is_Some (IsAdmin u')).
Proof. intros [b|l|email|l|l]; eexists; (split; [reflexivity|]); by split. Qed.

(** X5. A user made by [New] with a non-empty identifier and options of
    the five constructors, none with a nil argument, passes [Validate]. *)
Theorem New_user_is_valid (defaultIsAdmin : bool)
    (defaultACLs : option (list ACL)) (defaultOps : option (list Operation))
    (userId password : string) (opts : list Options) :
  userId ≠ "" → Forall nonNil opts →
  ∃ u, New defaultIsAdmin defaultACLs defaultOps userId password opts = inl u ∧
       Validate u = None.
Proof.
  intros Hid Hopts. unfold New.
  assert (Hloop : ∀ u0, ∃ u, New_loop u0 opts = inl u ∧ UserId u = UserId u0 ∧
                             (is_Some (IsAdmin u0) → is_Some (IsAdmin u))).
  { induction Hopts as [|o opts Ho _ IH]; intros u0; simpl; [by exists u0|].
    destruct (nonNil_step o u0 Ho) as (u1 & -> & Hid1 & Hadm1).
    destruct (IH u1) as (u & Hu & Hid2 & Hadm2).
    exists u. split_and!; [done|congruence|auto]. }
  destruct (Hloop (User.MkUser userId password (Some defaultIsAdmin) defaultACLs ""
                     defaultOps (Some []))) as (u & Hu & Hid' & Hadm).
  exists u. split; [done|]. unfold Validate. cbn in Hid', Hadm.
  rewrite decide_False by congruence.
  destruct Hadm as [b ->]; [by eexists|done].
Qed.

Lemma New_user_is_valid_witness :
  ∃ u, New false (Some [Misc]) (Some [Read]) "alice" "secret"
         [With.IsAdmin (Some true); With.ACLs (Some [Search])] = inl u ∧
       Validate u = None.
Proof.
  apply (New_user_is_valid false (Some [Misc]) (Some [Read]) "alice" "secret"
           [With.IsAdmin (Some true); With.ACLs (Some [Search])]).
  - discriminate.
  - repeat constructor.
Defined.

(** ** [middleware.go]: classification *)

Lemma matchKeywords_loop_spec (keywords : gset string) (tokens : list string) (count : nat) :
  matchKeywords_loop keywords tokens count = true ↔
  (∃ token, token ∈ tokens ∧ GoStrings.HasPrefix token "_" = true ∧ token ∈ keywords) ∨
  (count = 0 ∧ ∀ token, token ∈ tokens → GoStrings.HasPrefix token "_" = false).
Proof.
  revert count. induction tokens as [|token tokens IH]; intros count; simpl.
  - rewrite Nat.eqb_eq. split.
    + intros ->. right. split; [done|]. by intros ? ?%elem_of_nil.
    + intros [(? & ?%elem_of_nil & _)|[-> _]]; done.
  - destruct (GoStrings.HasPrefix token "_") eqn:Hp.
    + case_decide as Hk.
      * split; [|done]. intros _. left. exists token. rewrite elem_of_cons. auto.
      * rewrite IH. split.
        -- intros [(t & Ht & Htp & Htk)|[[=] _]]. left. exists t. rewrite elem_of_cons. auto.
        -- intros [(t & [->|Ht]%elem_of_cons & Htp & Htk)|[_ Hall]].
           ++ done.
           ++ left. by exists t.
           ++ specialize (Hall token). rewrite elem_of_cons in Hall.
              rewrite Hall in Hp by auto. done.
    + rewrite IH. split.
      * intros [(t & Ht & Htp & Htk)|[-> Hall]].
        -- left. exists t. rewrite elem_of_cons. auto.
        -- right. split; [done|]. intros t [->|Ht]%elem_of_cons; auto.
      * intros [(t & [->|Ht]%elem_of_cons & Htp & Htk)|[-> Hall]].
        -- congruence.
        -- left. by exists t.
        -- right. split; [done|]. intros t Ht. apply Hall. rewrite elem_of_cons. auto.
Qed.

(** X6. [matchKeywords] accepts a path exactly when one of its segments
    that start with an underscore is a keyword of the spec, or when no
    segment starts with an underscore. *)
Theorem matchKeywords_keyword_or_none (a : api) (path : string) :
  matchKeywords a path = true ↔
  (∃ token, token ∈ GoStrings.Split path slash ∧
            GoStrings.HasPrefix token "_" = true ∧ token ∈ api_keywords a) ∨
  (∀ token, token ∈ GoStrings.Split path slash → GoStrings.HasPrefix token "_" = false).
Proof.
  unfold matchKeywords. rewrite matchKeywords_loop_spec. naive_solver.
Qed.

Lemma getIndexName_loop_returns (endpointTokens requestPathTokens : list string)
    (n i k : nat) :
  length endpointTokens = length requestPathTokens →
  i ≤ k → endpointTokens !! k = Some indexVar →
  ∃ l, getIndexName_loop endpointTokens requestPathTokens n i = Returned l.
Proof.
  intros Hlen. revert i. induction n as [|n IH]; intros i Hik Hk; simpl; [by eexists|].
  destruct (endpointTokens !! i) as [token|] eqn:Hi.
  - case_decide as Ht.
    + destruct (requestPathTokens !! i) as [names|] eqn:Hn; [by eexists|].
      apply lookup_ge_None in Hn. apply lookup_lt_Some in Hi. lia.
    + apply IH; [|done]. destruct (decide (i = k)) as [->|]; [congruence|lia].
  - apply lookup_ge_None in Hi. apply lookup_lt_Some in Hk. lia.
Qed.

(** X7. [getIndexName] returns, without indexing out of range, for every
    path whenever the placeholder is a whole segment of the endpoint. *)
Theorem getIndexName_returns_for_segment_placeholder (endpoint requestPath : string) :
  indexVar ∈ GoStrings.Split endpoint slash →
  ∃ l, getIndexName endpoint requestPath = Returned l.
Proof.
  intros [k Hk]%list_elem_of_lookup_1. unfold getIndexName.
  destruct (negb (GoStrings.Contains endpoint indexVar)); [by eexists|].
  destruct (length (GoStrings.Split endpoint slash)
            =? length (GoStrings.Split requestPath slash)) eqn:Hlen; [|by eexists].
  apply Nat.eqb_eq in Hlen. cbn [negb].
  apply (getIndexName_loop_returns _ _ _ 0 k); [done|lia|done].
Qed.

Lemma getIndexName_returns_for_segment_placeholder_witness :
  ∃ l, getIndexName "/_cat/indices/{index}" "/_cat/indices/a,b" = Returned l.
Proof.
  apply getIndexName_returns_for_segment_placeholder.
  replace (GoStrings.Split "/_cat/indices/{index}" slash)
    with [""; "_cat"; "indices"; "{index}"] by reflexivity.
  rewrite !elem_of_cons. auto.
Defined.

Lemma Split_pieces (s : string) (sep : ascii) (piece : string) :
  piece ∈ GoStrings.Split s sep →
  ¬ occurs sep piece ∧ ∀ c, occurs c piece → occurs c s.
Proof.
  revert piece. induction s as [|c s IH]; intros piece; simpl.
  - intros ->%list_elem_of_singleton. simpl. tauto.
  - destruct (Ascii.eqb_spec c sep) as [->|Hc].
    + intros [->|Hin]%elem_of_cons; [simpl; tauto|].
      destruct (IH piece Hin) as [? Hsub]. split; [done|]. intros c' ?. right. by apply Hsub.
    + destruct (GoStrings.Split s sep) as [|x xs] eqn:Hs.
      * intros ->%list_elem_of_singleton. simpl. split; [|tauto]. intros [?|[]]. congruence.
      * intros [->|Hin]%elem_of_cons.
        -- destruct (IH x) as [Hno Hsub]; [rewrite elem_of_cons; by left|].
           simpl. split.
           ++ intros [?|?]; [congruence|done].
           ++ intros c' [?|?]; [by left|right; by apply Hsub].
        -- destruct (IH piece) as [Hno Hsub]; [rewrite elem_of_cons; by right|].
           split; [done|]. intros c' ?. right. by apply Hsub.
Qed.

Lemma occurs_rev_app (c : ascii) (s acc : string) :
  occurs c (String.rev_app s acc) ↔ occurs c s ∨ occurs c acc.
Proof.
  revert acc. induction s as [|c' s IH]; intros acc; simpl; [tauto|].
  rewrite IH. simpl. tauto.
Qed.

Lemma occurs_rev (c : ascii) (s : string) : occurs c (String.rev s) ↔ occurs c s.
Proof. unfold String.rev. rewrite occurs_rev_app. simpl. tauto. Qed.

Lemma occurs_dropBytes (c : ascii) (n : nat) (s : string) :
  occurs c (GoStrings.dropBytes n s) → occurs c s.
Proof.
  revert s. induction n as [|n IH]; intros [|c' s]; simpl; try done.
  intros ?%IH. by right.
Qed.

Lemma occurs_stripAll (c : ascii) (fuel : nat) (encs : list string) (s : string) :
  occurs c (GoStrings.stripAll fuel encs s) → occurs c s.
Proof.
  revert s. induction fuel as [|fuel IH]; intros s; simpl; [done|].
  destruct (GoStrings.stripOne encs s) as [rest|] eqn:Hs; [|done].
  intros Hc%IH. clear IH. induction encs as [|e encs IHe]; simpl in Hs; [done|].
  destruct (String.prefix e s); [|by apply IHe].
  simplify_eq. by eapply occurs_dropBytes.
Qed.

Lemma occurs_TrimSpace (c : ascii) (s : string) :
  occurs c (GoStrings.TrimSpace s) → occurs c s.
Proof.
  unfold GoStrings.TrimSpace, GoStrings.TrimRightSpace. intros Hc.
  apply (proj1 (occurs_rev _ _)), occurs_stripAll in Hc.
  apply (proj1 (occurs_rev _ _)) in Hc.
  unfold GoStrings.TrimLeftSpace in Hc. by apply occurs_stripAll in Hc.
Qed.

Lemma getIndexName_loop_result (endpointTokens requestPathTokens : list string)
    (n i : nat) (l : list string) :
  getIndexName_loop endpointTokens requestPathTokens n i = Returned l →
  l = [] ∨ ∃ segment, segment ∈ requestPathTokens ∧
                      l = map GoStrings.TrimSpace (GoStrings.Split segment comma).
Proof.
  revert i. induction n as [|n IH]; intros i; simpl.
  - intros [= <-]. by left.
  - destruct (endpointTokens !! i) as [token|]; [|done].
    case_decide; [|apply IH].
    destruct (requestPathTokens !! i) as [names|] eqn:Hn; [|done].
    intros [= <-]. right. exists names. split; [|done].
    by eapply list_elem_of_lookup_2.
Qed.

(** X8. Every resource name [getIndexName] returns is one name: it holds
    no comma and no slash. *)
Theorem getIndexName_names_hold_no_separator (endpoint requestPath : string)
    (l : list string) (name : string) :
  getIndexName endpoint requestPath = Returned l → name ∈ l →
  ¬ occurs comma name ∧ ¬ occurs slash name.
Proof.
  unfold getIndexName.
  destruct (negb (GoStrings.Contains endpoint indexVar)).
  { intros [= <-]. by intros ?%elem_of_nil. }
  destruct (negb _).
  { intros [= <-]. by intros ?%elem_of_nil. }
  intros [->|(segment & Hseg & ->)]%getIndexName_loop_result; [by intros ?%elem_of_nil|].
  intros (piece & -> & Hpiece)%list_elem_of_fmap.
  destruct (Split_pieces _ _ _ Hseg) as [Hslash _].
  destruct (Split_pieces _ _ _ Hpiece) as [Hcomma Hsub].
  split; intros Hc%occurs_TrimSpace; [done|]. by apply Hslash, Hsub.
Qed.

Lemma getIndexName_names_hold_no_separator_witness :
  ¬ occurs comma "b" ∧ ¬ occurs slash "b".
Proof.
  apply (getIndexName_names_hold_no_separator "/{index}/_mapping" "/a, b/_mapping" ["a"; "b"]).
  - by vm_compute.
  - rewrite !elem_of_cons. auto.
Defined.

Section CategorizeFacts.
Context `{GoLib}.

Lemma categorize_endpoints_here (a : api) (endpoint pattern : string)
    (rest : list (string * string)) (method path : string) :
  specMatches a pattern method path →
  categorize_endpoints a ((endpoint, pattern) :: rest) method path
  = Some (answerOf a endpoint method path).
Proof.
  intros (Hre & Hm & Hk). simpl. by rewrite Hre, Hm, Hk.
Qed.

Lemma categorize_endpoints_cases (a : api) (entries : list (string * string))
    (method path : string) :
  (categorize_endpoints a entries method path = None ∧
   ∀ endpoint pattern, (endpoint, pattern) ∈ entries → ¬ specMatches a pattern method path) ∨
  (∃ e1 endpoint pattern e2,
     entries = e1 ++ (endpoint, pattern) :: e2 ∧
     (∀ ep pt, (ep, pt) ∈ e1 → ¬ specMatches a pt method path) ∧
     specMatches a pattern method path ∧
     categorize_endpoints a entries method path = Some (answerOf a endpoint method path)).
Proof.
  induction entries as [|[endpoint pattern] entries IH].
  - left. split; [done|]. by intros ? ? ?%elem_of_nil.
  - assert (Hhere : specMatches a pattern method path ∨
              (¬ specMatches a pattern method path ∧
               categorize_endpoints a ((endpoint, pattern) :: entries) method path
               = categorize_endpoints a entries method path)).
    { unfold specMatches. simpl.
      destruct (regexp_MatchString pattern path) as [ok [e|]];
        [right; split; [by intros [[=] _]|done]|].
      destruct ok; [|right; split; [by intros [[=] _]|done]].
      destruct (Util.Contains (api_Methods a) method);
        [|right; split; [by intros (_ & [=] & _)|done]].
      destruct (matchKeywords a path);
        [|right; split; [by intros (_ & _ & [=])|done]].
      by left. }
    destruct Hhere as [Hm|[Hm Hskip]].
    + right. exists [], endpoint, pattern, entries.
      split_and!; [done|by intros ? ? ?%elem_of_nil|done|by apply categorize_endpoints_here].
    + rewrite Hskip.
      destruct IH as [[Hnone Hall]|(e1 & ep & pt & e2 & -> & Hbefore & Hhere & Hres)].
      * left. split; [done|]. intros ep pt [[= -> ->]|Hin]%elem_of_cons; [done|by eapply Hall].
      * right. exists ((endpoint, pattern) :: e1), ep, pt, e2. split_and!; [done| |done|done].
        intros ep' pt' [[= -> ->]|Hin]%elem_of_cons; [done|by eapply Hbefore].
Qed.

End CategorizeFacts.

(** X9. [categorize] answers from a registered endpoint that matches, or
    with the default when none does: either no endpoint of any spec
    matches and the result is miscellaneous, Read and no names, or the
    result is that of an endpoint that matches (the ACL of its spec, the
    operation [getOp] derives, the names [getIndexName] extracts, or the
    panic of [getIndexName]). *)
Theorem categorize_answers_from_a_matching_endpoint `{GoLib} (specs : list api)
    (method path : string) :
  (categorize specs method path = Returned (Misc, Read, []) ∧
   ∀ a endpoint pattern, a ∈ specs → (endpoint, pattern) ∈ api_pathRegexps a →
                         ¬ specMatches a pattern method path) ∨
  (∃ a endpoint pattern,
     a ∈ specs ∧ (endpoint, pattern) ∈ api_pathRegexps a ∧
     specMatches a pattern method path ∧
     categorize specs method path = answerOf a endpoint method path).
Proof.
  induction specs as [|a specs IH]; simpl.
  - left. split; [done|]. by intros ? ? ? ?%elem_of_nil.
  - destruct (categorize_endpoints_cases a (api_pathRegexps a) method path)
      as [[Hnone Hall]|(e1 & ep & pt & e2 & Hentries & _ & Hhere & Hres)].
    + rewrite Hnone.
      destruct IH as [[Hres Hrest]|(b & ep & pt & Hb & Hin & Hm & Hres)].
      * left. split; [done|].
        intros b ep pt [->|Hb]%elem_of_cons; [apply Hall|by apply Hrest].
      * right. exists b, ep, pt. rewrite elem_of_cons. auto.
    + rewrite Hres. right. exists a, ep, pt. split_and!; [|rewrite Hentries|done|done].
      * rewrite elem_of_cons. by left.
      * rewrite elem_of_app, elem_of_cons. auto.
Qed.

(** X10. The first match wins: when no endpoint of the specs before [a]
    matches, nor any endpoint of [a] visited before [endpoint], and
    [endpoint] matches, [categorize] answers from [endpoint], whatever
    comes after. *)
Theorem categorize_first_match_wins `{GoLib} (before after : list api) (a : api)
    (e1 e2 : list (string * string)) (endpoint pattern method path : string) :
  (∀ b ep pt, b ∈ before → (ep, pt) ∈ api_pathRegexps b → ¬ specMatches b pt method path) →
  api_pathRegexps a = e1 ++ (endpoint, pattern) :: e2 →
  (∀ ep pt, (ep, pt) ∈ e1 → ¬ specMatches a pt method path) →
  specMatches a pattern method path →
  categorize (before ++ a :: after) method path = answerOf a endpoint method path.
Proof.
  intros Hbefore Hentries He1 Hhere.
  induction before as [|b before IH]; simpl.
  - rewrite Hentries.
    assert (Hskip : ∀ rest, categorize_endpoints a (e1 ++ rest) method path
                            = categorize_endpoints a rest method path).
    { intros rest. clear Hentries. induction e1 as [|[ep pt] e1 IHe]; [done|].
      assert (Hno : ¬ specMatches a pt method path)
        by (apply (He1 ep pt); rewrite elem_of_cons; by left).
      rewrite <- IHe by (intros ep' pt' Hin; apply (He1 ep' pt'); rewrite elem_of_cons; by right).
      cbn [app categorize_endpoints]. unfold specMatches in Hno.
      destruct (regexp_MatchString pt path) as [ok [e|]]; [done|].
      destruct ok; [|done].
      destruct (Util.Contains (api_Methods a) method); [|done].
      destruct (matchKeywords a path); [|done].
      by destruct Hno. }
    rewrite Hskip. by rewrite categorize_endpoints_here.
  - rewrite categorize_endpoints_none.
    + apply IH. intros b' ep pt Hb'. apply (Hbefore b' ep pt). rewrite elem_of_cons. by right.
    + intros ep pt. apply (Hbefore b ep pt). rewrite elem_of_cons. by left.
Qed.

Lemma categorize_first_match_wins_witness :
  categorize (H := goLib)
    ([MkApi Bulk ["POST"] [("/_bulk", "^/_bulk$")] {["_bulk"]}] ++
     MkApi Search ["GET"; "POST"]
       [("/_search", "^/_search$"); ("/{index}/_search", "^/.+/_search$")] {["_search"]} ::
     [MkApi Misc ["GET"; "POST"] [("/{index}/_search", "^/.*$")] ∅])
    "POST" "/a,b/_search"
  = Returned (Search, Read, ["a"; "b"]).
Proof.
  apply (categorize_first_match_wins (H := goLib)
           [MkApi Bulk ["POST"] [("/_bulk", "^/_bulk$")] {["_bulk"]}]
           [MkApi Misc ["GET"; "POST"] [("/{index}/_search", "^/.*$")] ∅]
           (MkApi Search ["GET"; "POST"]
              [("/_search", "^/_search$"); ("/{index}/_search", "^/.+/_search$")]
              {["_search"]})
           [("/_search", "^/_search$")] [] "/{index}/_search" "^/.+/_search$").
  - intros b ep pt ->%list_elem_of_singleton [= -> ->]%list_elem_of_singleton [Hre _].
    by vm_compute in Hre.
  - reflexivity.
  - intros ep pt [= -> ->]%list_elem_of_singleton [Hre _]. by vm_compute in Hre.
  - split_and!; by vm_compute.
Defined.

(** ** [middleware.go]: enforcement *)

Section EnforcementFacts.
Context `{GoLib}.

(** With the permission and the resource list in the context, the
    resource filter either lets the request through or answers with one
    write whose status is 401 or 400. *)
Lemma validateIndices_outcome (w : ResponseWriter) (r : Request)
    (u : User.User) (indices : list string) :
  ctx_permission r = Some u → ctx_index r = Some indices →
  allows validateIndices w r ∨
  ∃ x, (statusOf x = http.StatusUnauthorized ∨ statusOf x = http.StatusBadRequest) ∧
       answers validateIndices w r x.
Proof.
  intros Hu Hi. unfold allows, answers, validateIndices, permission_FromContext.
  rewrite Hu, Hi. destruct (length indices =? 0).
  - destruct (CanAccessIndex u "*") as [[] [e|]]; [right|by left|right|right];
      eexists; (split; [|done]); simpl; auto.
  - destruct (validateIndices_names indices (slice (Indices u))) as [x|] eqn:E; [|by left].
    right. exists x. split; [|done].
    destruct (validateIndices_names_Some _ _ _ E) as [msg ->]. by left.
Qed.

Lemma validateACL_step (h : HandlerFunc) (w : ResponseWriter) (r : Request)
    (a : ACL) (u : User.User) :
  ctx_acl r = Some a → ctx_permission r = Some u →
  validateACL h w r =
  if HasACL u a then h w r
  else w ++ [WriteBackMessage
               ("permission with username=" +:+ UserId u +:+ " does not have '" +:+
                ACL_String a +:+ "' acl") http.StatusUnauthorized].
Proof.
  intros Ha Hu. unfold validateACL, acl_FromContext, permission_FromContext.
  rewrite Ha, Hu. by destruct (HasACL u a).
Qed.

Lemma validateOp_step (h : HandlerFunc) (w : ResponseWriter) (r : Request)
    (o : Operation) (u : User.User) :
  ctx_op r = Some o → ctx_permission r = Some u →
  validateOp h w r =
  if Can u o then h w r
  else w ++ [WriteBackMessage
               ("permission with username=" +:+ UserId u +:+ " does not have '" +:+
                Operation_String o +:+ "' operation") http.StatusUnauthorized].
Proof.
  intros Ho Hu. unfold validateOp, op_FromContext, permission_FromContext.
  rewrite Ho, Hu. by destruct (Can u o).
Qed.

End EnforcementFacts.

(** X11. The three filters in a row, on a request that carries an ACL, an
    operation and a permission: the request reaches the handler behind
    them exactly when the permission holds the ACL, holds the operation
    and passes the resource filter.  A missing ACL is answered by the ACL
    filter with a 401 that names it, whatever the operation and the
    resources are; a missing operation, once the ACL is held, by the
    operation filter. *)
Theorem enforcement_allows_what_all_three_allow `{GoLib} (w : ResponseWriter)
    (r : Request) (a : ACL) (o : Operation) (u : User.User) :
  ctx_acl r = Some a → ctx_op r = Some o → ctx_permission r = Some u →
  (allows enforcement w r ↔
     a ∈ slice (ACLs u) ∧ o ∈ slice (Ops u) ∧ allows validateIndices w r) ∧
  (a ∉ slice (ACLs u) →
     answers enforcement w r
       (WriteBackMessage
          ("permission with username=" +:+ UserId u +:+ " does not have '" +:+
           ACL_String a +:+ "' acl") http.StatusUnauthorized)) ∧
  (a ∈ slice (ACLs u) → o ∉ slice (Ops u) →
     answers enforcement w r
       (WriteBackMessage
          ("permission with username=" +:+ UserId u +:+ " does not have '" +:+
           Operation_String o +:+ "' operation") http.StatusUnauthorized)).
Proof.
  intros Ha Ho Hu.
  assert (Hstep : ∀ h, enforcement h w r =
            if HasACL u a then
              if Can u o then validateIndices h w r
              else w ++ [WriteBackMessage
                           ("permission with username=" +:+ UserId u +:+ " does not have '" +:+
                            Operation_String o +:+ "' operation") http.StatusUnauthorized]
            else w ++ [WriteBackMessage
                         ("permission with username=" +:+ UserId u +:+ " does not have '" +:+
                          ACL_String a +:+ "' acl") http.StatusUnauthorized]).
  { intros h. unfold enforcement. rewrite (validateACL_step _ _ _ a u) by done.
    destruct (HasACL u a); [|done]. by rewrite (validateOp_step _ _ _ o u). }
  destruct (HasACL u a) eqn:EA.
  - apply HasACL_elem_of in EA. destruct (Can u o) eqn:EO.
    + apply Can_elem_of in EO. split_and!; [|done..].
      split.
      * intros Hal. split_and!; [done..|]. intros h. rewrite <- Hstep. apply Hal.
      * intros (_ & _ & Hal) h. rewrite Hstep. apply Hal.
    + assert (Hno : o ∉ slice (Ops u)) by (rewrite <- Can_elem_of; congruence).
      assert (Hans : answers enforcement w r
                (WriteBackMessage
                   ("permission with username=" +:+ UserId u +:+ " does not have '" +:+
                    Operation_String o +:+ "' operation") http.StatusUnauthorized))
        by (intros h; apply Hstep).
      split_and!; [|done..].
      split; [|by intros (_ & ? & _)].
      intros Hal. by apply answers_not_allows in Hans.
  - assert (Hno : a ∉ slice (ACLs u)) by (rewrite <- HasACL_elem_of; congruence).
    assert (Hans : answers enforcement w r
              (WriteBackMessage
                 ("permission with username=" +:+ UserId u +:+ " does not have '" +:+
                  ACL_String a +:+ "' acl") http.StatusUnauthorized))
      by (intros h; apply Hstep).
    split_and!; [|done..].
    split; [|by intros (? & _)].
    intros Hal. by apply answers_not_allows in Hans.
Qed.

Lemma enforcement_allows_what_all_three_allow_witness :
  answers (enforcement (H := goLib)) []
    (MkRequest (Some Bulk) (Some Write) (Some ["logs"])
       (Some (User.MkUser "bob" "" (Some false) (Some [Search]) "" (Some [Read]) (Some [".*"]))))
    (WriteBackMessage "permission with username=bob does not have 'bulk' acl"
       http.StatusUnauthorized).
Proof.
  destruct (enforcement_allows_what_all_three_allow (H := goLib) []
              (MkRequest (Some Bulk) (Some Write) (Some ["logs"])
                 (Some (User.MkUser "bob" "" (Some false) (Some [Search]) "" (Some [Read])
                          (Some [".*"]))))
              Bulk Write
              (User.MkUser "bob" "" (Some false) (Some [Search]) "" (Some [Read]) (Some [".*"]))
              eq_refl eq_refl eq_refl) as (_ & Hacl & _).
  apply Hacl. cbn. by intros [=]%list_elem_of_singleton.
Defined.

(** X12. An entity without stored patterns (a nil or an empty [Indices])
    passes the resource filter for every non-empty resource list, since
    there is no pattern to fail, and is refused every cluster-level
    request with the unauthorized answer. *)
Theorem validateIndices_without_patterns `{GoLib} (u : User.User)
    (w : ResponseWriter) (a : ACL) (o : Operation) (indices : list string) :
  slice (Indices u) = [] →
  (indices ≠ [] → allows validateIndices w (requestFor a o indices u)) ∧
  answers validateIndices w (requestFor a o [] u)
    (WriteBackError "User is unauthorized to access cluster level routes"
       http.StatusUnauthorized).
Proof.
  intros Hnone. split.
  - intros Hne h. unfold validateIndices, permission_FromContext.
    cbn [ctx_permission ctx_index requestFor]. destruct indices as [|name indices]; [done|].
    cbn [length Nat.eqb]. rewrite Hnone.
    assert (Hn : ∀ l, validateIndices_names l [] = None) by (induction l; [done|by simpl]).
    by rewrite Hn.
  - intros h. unfold validateIndices, permission_FromContext, CanAccessIndex.
    cbn [ctx_permission ctx_index requestFor length Nat.eqb]. by rewrite Hnone.
Qed.

Lemma validateIndices_without_patterns_witness :
  allows (validateIndices (H := goLib)) []
    (requestFor Search Read ["secret-index"]
       (User.MkUser "u" "" None None "" None None)).
Proof.
  destruct (validateIndices_without_patterns (H := goLib)
              (User.MkUser "u" "" None None "" None None) [] Search Read ["secret-index"]
              eq_refl) as [Hallow _].
  by apply Hallow.
Defined.

Lemma Replace_without_star (s new : string) :
  GoStrings.Contains s "*" = false → GoStrings.Replace s star new = s.
Proof.
  induction s as [|c s IH]; [done|]. simpl.
  destruct (Ascii.eqb_spec c star) as [->|Hc].
  - cbn. by destruct s.
  - intros Hs. rewrite IH; [done|].
    apply orb_false_iff in Hs. by destruct Hs.
Qed.

(** X13. For stored patterns that hold no ["*"] the rewriting changes
    nothing: the resource filter lets a request with a non-empty
    resource list through exactly when every stored pattern, as it is
    stored, is a valid regular expression that matches every resolved
    name. *)
Theorem validateIndices_starless_patterns `{GoLib} (u : User.User)
    (w : ResponseWriter) (a : ACL) (o : Operation) (indices : list string) :
  indices ≠ [] →
  (∀ p, p ∈ slice (Indices u) → GoStrings.Contains p "*" = false) →
  (allows validateIndices w (requestFor a o indices u) ↔
   ∀ name p, name ∈ indices → p ∈ slice (Indices u) → matches p name).
Proof.
  intros Hne Hstar.
  assert (Hstep : ∀ h, validateIndices h w (requestFor a o indices u) =
            match validateIndices_names indices (slice (Indices u)) with
            | Some x => w ++ [x]
            | None => h w (requestFor a o indices u)
            end).
  { intros h. unfold validateIndices, permission_FromContext.
    cbn [ctx_permission ctx_index requestFor]. by destruct indices. }
  assert (Hall : validateIndices_names indices (slice (Indices u)) = None ↔
            ∀ name p, name ∈ indices → p ∈ slice (Indices u) → matches p name).
  { rewrite validateIndices_names_None, Forall_forall. setoid_rewrite Forall_forall.
    unfold passes, matches, indexPattern. split; intros Hp name p Hn Hin.
    - specialize (Hp name Hn p Hin). by rewrite Replace_without_star in Hp by by apply Hstar.
    - rewrite Replace_without_star by by apply Hstar. by apply Hp. }
  rewrite <- Hall.
  destruct (validateIndices_names indices (slice (Indices u))) as [x|] eqn:E.
  - split; [|done]. intros Hal.
    assert (Hans : answers validateIndices w (requestFor a o indices u) x)
      by (intros h; apply Hstep).
    by apply answers_not_allows in Hans.
  - split; [done|]. intros _ h. apply Hstep.
Qed.

Lemma validateIndices_starless_patterns_witness :
  allows (validateIndices (H := goLib)) []
    (requestFor Search Read ["prod-1"]
       (User.MkUser "u" "" None None "" None (Some ["prod-.+"; "^prod"]))).
Proof.
  apply (validateIndices_starless_patterns (H := goLib)
           (User.MkUser "u" "" None None "" None (Some ["prod-.+"; "^prod"]))
           [] Search Read ["prod-1"]); [done| |].
  - cbn. intros p. rewrite !elem_of_cons, elem_of_nil. by intros [->|[->|[]]].
  - cbn. intros name p ->%list_elem_of_singleton.
    rewrite !elem_of_cons, elem_of_nil. by intros [->|[->|[]]]; vm_compute.
Defined.

Section DenialFacts.
Context `{GoLib}.

Lemma validateIndices_patterns_app (p1 rest : list string) (name : string) :
  Forall (passes name) p1 →
  validateIndices_patterns (p1 ++ rest) name = validateIndices_patterns rest name.
Proof.
  induction 1 as [|p p1 Hp _ IH]; [done|]. simpl.
  unfold passes in Hp. by rewrite Hp.
Qed.

Lemma validateIndices_names_app (n1 rest patterns : list string) :
  Forall (fun name => Forall (passes name) patterns) n1 →
  validateIndices_names (n1 ++ rest) patterns = validateIndices_names rest patterns.
Proof.
  induction 1 as [|name n1 Hname _ IH]; [done|]. simpl.
  apply validateIndices_patterns_None in Hname. by rewrite Hname.
Qed.

End DenialFacts.

(** X14. The resource filter reports the first failure in the order of
    the loops, names outside and patterns inside: when every name before
    [name] passes every stored pattern and every pattern before [p] passes
    for [name], the answer is the 401 that names [name] if the rewritten
    [p] is valid and does not match it, and the 401 that shows the
    rewritten [p] if that is not a valid regular expression. *)
Theorem validateIndices_reports_first_failure `{GoLib} (u : User.User)
    (w : ResponseWriter) (a : ACL) (o : Operation)
    (n1 n2 p1 p2 : list string) (name p : string) :
  slice (Indices u) = p1 ++ p :: p2 →
  Forall (fun n => Forall (passes n) (slice (Indices u))) n1 →
  Forall (passes name) p1 →
  let r := requestFor a o (n1 ++ name :: n2) u in
  (regexp_MatchString (indexPattern p) name = (false, None) →
   answers validateIndices w r
     (WriteBackMessage ("User is unauthorized to access index " +:+ name)
        http.StatusUnauthorized)) ∧
  (∀ b e, regexp_MatchString (indexPattern p) name = (b, Some e) →
   answers validateIndices w r
     (WriteBackMessage ("invalid index pattern encountered " +:+ indexPattern p)
        http.StatusUnauthorized)).
Proof.
  intros Hpat Hn1 Hp1 r.
  assert (Hstep : ∀ h, validateIndices h w r =
            match validateIndices_patterns (p :: p2) name with
            | Some x => w ++ [x]
            | None =>
                match validateIndices_names n2 (slice (Indices u)) with
                | Some x => w ++ [x]
                | None => h w r
                end
            end).
  { intros h. unfold validateIndices, permission_FromContext.
    cbn [ctx_permission ctx_index r requestFor].
    replace (length (n1 ++ name :: n2) =? 0) with false
      by (symmetry; apply Nat.eqb_neq; rewrite length_app; simpl; lia).
    rewrite validateIndices_names_app by done. cbn [validateIndices_names].
    rewrite Hpat at 1. rewrite validateIndices_patterns_app by done.
    by destruct (validateIndices_patterns (p :: p2) name). }
  split.
  - intros Hno h. rewrite Hstep. simpl. by rewrite Hno.
  - intros b e Hbad h. rewrite Hstep. simpl. by rewrite Hbad.
Qed.

Lemma validateIndices_reports_first_failure_witness :
  answers (validateIndices (H := goLib)) []
    (requestFor Search Read ["prod-1"; "test-1"; "dev-1"]
       (User.MkUser "u" "" None None "" None (Some ["*"; "prod-*"])))
    (WriteBackMessage "User is unauthorized to access index test-1" http.StatusUnauthorized).
Proof.
  destruct (validateIndices_reports_first_failure (H := goLib)
              (User.MkUser "u" "" None None "" None (Some ["*"; "prod-*"]))
              [] Search Read ["prod-1"] ["dev-1"] ["*"] [] "test-1" "prod-*")
    as [Hdeny _].
  - reflexivity.
  - cbv [slice default from_option Indices id]. rewrite !Forall_cons, !Forall_nil.
    split_and!; try done; by vm_compute.
  - rewrite !Forall_cons, !Forall_nil. split; [by vm_compute|done].
  - apply Hdeny. by vm_compute.
Defined.

(** ** [middleware.go]: the classifier *)

(** X15. After the classifier the filters find what they look for: for a
    request whose context holds a permission, the classifier followed by
    the three filters either panics inside [categorize], or hands the
    classified request to the handler behind the filters, or answers with
    one write whose status is 401 or 400; it never answers with the
    internal error of a missing context value. *)
Theorem classifier_then_filters_never_internal_error `{GoLib} (specs : list api)
    (h : HandlerFunc) (w : ResponseWriter) (r : HttpRequest) (u : User.User)
    (out : ResponseWriter) :
  ctx_permission (req_Context r) = Some u →
  classifier specs (enforcement h) w r = Returned out →
  ∃ c, categorize specs (req_Method r) (GoStrings.TrimSuffix (req_Path r) slash) = Returned c ∧
       (out = h w (classified r c) ∨
        ∃ x, out = w ++ [x] ∧
             (statusOf x = http.StatusUnauthorized ∨ statusOf x = http.StatusBadRequest)).
Proof.
  intros Hu. unfold classifier.
  destruct (categorize specs (req_Method r) (GoStrings.TrimSuffix (req_Path r) slash))
    as [c|msg]; [|done].
  intros [= <-]. exists c. split; [done|].
  destruct c as [[reqACL reqOp] indices].
  set (r' := classified r (reqACL, reqOp, indices)).
  assert (Hr' : ∃ a', ctx_acl r' = Some a' ∧ ctx_op r' = Some reqOp ∧
                      ctx_index r' = Some indices ∧ ctx_permission r' = Some u).
  { unfold r', classified. case_decide; eexists; by split_and!. }
  destruct Hr' as (a' & Ha & Ho & Hi & Hp).
  unfold enforcement. rewrite (validateACL_step _ _ _ a' u) by done.
  destruct (HasACL u a'); [|right; eexists; split; [done|by left]].
  rewrite (validateOp_step _ _ _ reqOp u) by done.
  destruct (Can u reqOp); [|right; eexists; split; [done|by left]].
  destruct (validateIndices_outcome w r' u indices Hp Hi) as [Hal|(x & Hx & Hans)].
  - left. apply Hal.
  - right. exists x. split; [apply Hans|done].
Qed.

Lemma classifier_then_filters_never_internal_error_witness :
  ∃ c, categorize (H := goLib) [] "GET" "/a" = Returned c ∧
       ([WriteBackMessage "permission with username=u does not have 'miscellaneous' acl" 401]
        = (fun w _ => w) [] (classified (MkHttpRequest "GET" "/a/" ∅
                                           (MkRequest None None None
                                              (Some (User.MkUser "u" "" None None "" None None))))
                               c) ∨
        ∃ x, [WriteBackMessage "permission with username=u does not have 'miscellaneous' acl" 401]
             = [] ++ [x] ∧
             (statusOf x = http.StatusUnauthorized ∨ statusOf x = http.StatusBadRequest)).
Proof.
  apply (classifier_then_filters_never_internal_error (H := goLib) [] (fun w _ => w) []
           (MkHttpRequest "GET" "/a/" ∅
              (MkRequest None None None (Some (User.MkUser "u" "" None None "" None None))))
           (User.MkUser "u" "" None None "" None None)); reflexivity.
Defined.

Lemma TrimSuffix_app (p : string) : GoStrings.TrimSuffix (p +:+ "/") slash = p.
Proof.
  induction p as [|c p IH]; [done|].
  destruct p as [|c' p]; [done|].
  change (String c (GoStrings.TrimSuffix (String c' p +:+ "/") slash) = String c (String c' p)).
  by rewrite IH.
Qed.

(** X16. A trailing slash does not count: a request for [p/] is
    classified as [categorize] classifies [p], for every path [p]. *)
Theorem classifier_ignores_trailing_slash `{GoLib} (specs : list api) (h : HandlerFunc)
    (w : ResponseWriter) (method p : string) (query : url.Values) (ctx : Request) :
  let r := MkHttpRequest method (p +:+ "/") query ctx in
  classifier specs h w r =
  match categorize specs method p with
  | Panicked msg => Panicked msg
  | Returned c => Returned (h w (classified r c))
  end.
Proof.
  intros r. unfold classifier. subst r. cbn [req_Path req_Method].
  by rewrite TrimSuffix_app.
Qed.

(** ** [dao.go] *)

Section HashPasswordsFacts.
Context `{Users.Backend}.


End HashPasswordsFacts.



(** X18. [hashPasswords] stops at the first patch that fails: when the
    users before [u] were handled without error, [u] has no hash type and
    the patch of [u] returns an error, the loop returns that error in the
    world the failed patch left, and the users after [u] are not
    touched.  The patch is made with whatever [bcrypt] returned, without
    regard to its error. *)
Theorem hashPasswords_stops_at_first_failed_patch `{Users.Backend}
    (es : Users.elasticsearch) (before after : list (Users.User Users.UserRest))
    (u : Users.User Users.UserRest) (w w1 w2 w3 : Users.World)
    (hashedPassword raw : string) (hashError : option Users.error) (e : Users.error) :
  Users.hashPasswords_loop es before w = (w1, None) →
  Users.PasswordHashType u = "" →
  Users.bcrypt_GenerateFromPassword (Users.Password u) w1 = (w2, (hashedPassword, hashError)) →
  Users.patchUser es (Users.Username u)
    (<["password" := hashedPassword]> (<["password_hash_type" := "bcrypt"]> ∅)) w2
  = (w3, (raw, Some e)) →
  Users.hashPasswords_loop es (before ++ u :: after) w = (w3, Some e).
Proof.
  intros Hbefore Hu Hhash Hpatch. revert w Hbefore.
  induction before as [|b before IH]; intros w Hbefore; simpl in *.
  - simplify_eq. rewrite decide_False by (intros Hn; by apply Hn).
    by rewrite Hhash, Hpatch.
  - case_decide; [by apply IH|].
    destruct (Users.bcrypt_GenerateFromPassword (Users.Password b) w) as [wa [hp he]].
    destruct (Users.patchUser es (Users.Username b) _ wa) as [wb [rb [eb|]]]; [done|].
    by apply IH.
Qed.

Lemma hashPasswords_stops_at_first_failed_patch_witness :
  Users.hashPasswords_loop (H := logBackend) (Users.MkElasticsearch ".users")
    ([Users.MkUser unit "ann" "pw1" "" (); Users.MkUser unit "old" "x" "bcrypt" ()] ++
     Users.MkUser unit "bad" "pw2" "" () :: [Users.MkUser unit "zoe" "pw3" "" ()]) []
  = ([("ann", <["password" := "hashed pw1"]> (<["password_hash_type" := "bcrypt"]> ∅));
      ("bad", <["password" := "hashed pw2"]> (<["password_hash_type" := "bcrypt"]> ∅))],
     Some "boom").
Proof.
  apply (hashPasswords_stops_at_first_failed_patch (H := logBackend)
           (Users.MkElasticsearch ".users")
           [Users.MkUser unit "ann" "pw1" "" (); Users.MkUser unit "old" "x" "bcrypt" ()]
           [Users.MkUser unit "zoe" "pw3" "" ()]
           (Users.MkUser unit "bad" "pw2" "" ()) []
           [("ann", <["password" := "hashed pw1"]> (<["password_hash_type" := "bcrypt"]> ∅))]
           [("ann", <["password" := "hashed pw1"]> (<["password_hash_type" := "bcrypt"]> ∅))]
           _ "hashed pw2" "" None "boom"); reflexivity.
Defined.

(** X19. [postMasterUser] returns no error exactly when [user.NewAdmin]
    and the index call succeed, whatever [bcrypt] returned: the
    credentials are those of the environment, or [foo] and [bar] when
    [USERNAME] is empty (the variable [PASSWORD] is then not used), and
    the user is indexed under its name with the hash type [bcrypt]. *)
Theorem postMasterUser_succeeds_when_indexed `{Users.Backend} (es : Users.elasticsearch)
    (w w1 : Users.World) (hashedPassword : string) (hashError : option Users.error) :
  let username :=
    if decide (Users.os_Getenv "USERNAME" w = "") then "foo"
    else Users.os_Getenv "USERNAME" w in
  let password :=
    if decide (Users.os_Getenv "USERNAME" w = "") then "bar"
    else Users.os_Getenv "PASSWORD" w in
  Users.bcrypt_GenerateFromPassword password w = (w1, (hashedPassword, hashError)) →
  (Users.postMasterUser es w).2 = None ↔
  ∃ admin, Users.user_NewAdmin username hashedPassword = inl admin ∧
           (Users.client_Index (Users.indexName es) (Users.Username admin)
              (Users.MkUser _ (Users.Username admin) (Users.Password admin) "bcrypt"
                 (Users.Others admin)) w1).2 = None.
Proof.
  intros username password Hhash. unfold Users.postMasterUser.
  assert (Hcred : (if decide (Users.os_Getenv "USERNAME" w = "") then ("foo", "bar")
                   else (Users.os_Getenv "USERNAME" w, Users.os_Getenv "PASSWORD" w))
                  = (username, password)).
  { unfold username, password. by case_decide. }
  rewrite Hcred, Hhash.
  destruct (Users.user_NewAdmin username hashedPassword) as [admin|err]; simpl.
  - unfold Users.postUser. cbn [Users.Username].
    destruct (Users.client_Index _ _ _ w1) as [w2 [e|]] eqn:Hindex; simpl.
    + split; [done|]. intros (a & [= <-] & Hi). by rewrite Hindex in Hi.
    + split; [|done]. intros _. exists admin. by rewrite Hindex.
  - split; [done|]. by intros (a & [=] & _).
Qed.

Lemma postMasterUser_succeeds_when_indexed_witness :
  (Users.postMasterUser (H := logBackend) (Users.MkElasticsearch ".users") []).2 = None.
Proof.
  apply (postMasterUser_succeeds_when_indexed (H := logBackend)
           (Users.MkElasticsearch ".users") [] [] "hashed bar" None eq_refl).
  by eexists.
Defined.

(** ** [user.go]: how the checks compose *)

(** X20. Patterns added at the end of the stored list never take away
    what [CanAccessIndex] decided on the list before them: a true answer
    and an error both stay as they are; only when the list before is
    exhausted without a match are the added patterns looked at. *)
Theorem CanAccessIndex_appended_patterns `{GoLib} (l l' : list string) (name : string)
    (userId pw email : string) (adm : option bool) (acls : option (list ACL))
    (ops : option (list Operation)) :
  let user (patterns : list string) :=
    User.MkUser userId pw adm acls email ops (Some patterns) in
  (CanAccessIndex (user l) name = (true, None) →
   CanAccessIndex (user (l ++ l')) name = (true, None)) ∧
  (∀ e, CanAccessIndex (user l) name = (false, Some e) →
        CanAccessIndex (user (l ++ l')) name = (false, Some e)) ∧
  (CanAccessIndex (user l) name = (false, None) →
   CanAccessIndex (user (l ++ l')) name = CanAccessIndex (user l') name).
Proof.
  intros user. unfold CanAccessIndex, user. clear user.
  change (slice (Indices (User.MkUser userId pw adm acls email ops (Some (l ++ l')))))
    with (l ++ l').
  change (slice (Indices (User.MkUser userId pw adm acls email ops (Some l)))) with l.
  change (slice (Indices (User.MkUser userId pw adm acls email ops (Some l')))) with l'.
  induction l as [|p l IH]; simpl.
  - by split_and!.
  - destruct (regexp_MatchString p name) as [[] [e|]]; try by split_and!.
    exact IH.
Qed.

Lemma CanAccessIndex_appended_patterns_witness :
  CanAccessIndex (H := goLib)
    (User.MkUser "u" "" None None "" None (Some (["prod-.*"] ++ ["("; "*"]))) "prod-1"
  = (true, None).
Proof.
  destruct (CanAccessIndex_appended_patterns (H := goLib) ["prod-.*"] ["("; "*"] "prod-1"
              "u" "" "" None None None) as [Hkeep _].
  apply Hkeep. by vm_compute.
Defined.

(** X21. A user made by [New] from options of the five constructors is
    never an empty delta: its patch always sets [indices], and sets
    [user_id] to the identifier [New] was given when that is not
    empty. *)
Theorem New_user_patch_sets_indices `{GoLib} (defaultIsAdmin : bool)
    (defaultACLs : option (list ACL)) (defaultOps : option (list Operation))
    (userId password : string) (opts : list Options) (u : User.User) :
  Forall standard opts →
  New defaultIsAdmin defaultACLs defaultOps userId password opts = inl u →
  (∃ l, (GetPatch u).1 !! "indices" = Some (VStrings l)) ∧
  (userId ≠ "" → (GetPatch u).1 !! "user_id" = Some (VString userId)).
Proof.
  intros Hstd Hnew. unfold New in Hnew.
  destruct (New_loop_invariant _ _ _ Hstd Hnew) as (Hid & _ & Hi & _ & _).
  cbn in Hid, Hi. rewrite !GetPatch_lookup.
  destruct (patchField_keys u) as (K1 & _ & _ & _ & _ & _ & K7). rewrite K1, K7.
  split.
  - destruct Hi as [l ->]; [by eexists|]. by exists l.
  - intros Hne. rewrite Hid. by rewrite decide_False.
Qed.

Lemma New_user_patch_sets_indices_witness :
  ∃ l, (GetPatch (H := goLib)
          (User.MkUser "alice" "secret" (Some false) None "a@b.c" None (Some []))).1
       !! "indices" = Some (VStrings l).
Proof.
  apply (New_user_patch_sets_indices (H := goLib) false None None "alice" "secret"
           [With.Email "a@b.c"]).
  - repeat constructor.
  - reflexivity.
Defined.
